(** * E-waste classification experiments: image preprocessing, batch
      preparation, training loops and the tabular split

    The repository is a notebook (tabular random-forest pipeline) and a
    script (two convolutional classifiers, one per preprocessing variant).
    The script's own functions are [adaptive_threshold], [sharpen],
    [preprocess_batch], [build_model] and the two epoch loops; everything
    else is a call into OpenCV, NumPy, Keras or scikit-learn.  Library calls
    are embedded with the semantics the libraries document; the parts that
    are numerical black boxes (the Gaussian local mean, the gradient step,
    the Mersenne Twister) are section variables. *)

From Stdlib Require Import ZArith List Ascii String Lia Bool.
From Stdlib Require Import Floats.SpecFloat.
From stdpp Require Import base option list sorting gmap strings.

Local Open Scope Z_scope.

(** ** Arrays of pixels *)

(** A 3-channel pixel in OpenCV's channel order (blue, green, red). *)
Definition pixel (A : Type) : Type := (A * A * A)%type.

(** An image is an array of shape (rows, cols, 3): a list of rows. *)
Abbreviation image A := (list (list (pixel A))).

(** A single-channel 8-bit image. *)
Abbreviation plane := (list (list Z)).

Inductive channel := chB | chG | chR.

Definition chan {A} (c : channel) (p : pixel A) : A :=
  match c, p with
  | chB, (b, _, _) => b
  | chG, (_, g, _) => g
  | chR, (_, _, r) => r
  end.

Definition mkpixel {A} (f : channel -> A) : pixel A := (f chB, f chG, f chR).

Definition pmap {A B} (f : A -> B) (p : pixel A) : pixel B :=
  mkpixel (fun c => f (chan c p)).

Definition rows {A} (m : list (list A)) : nat := length m.

Definition cols {A} (m : list (list A)) : nat :=
  match m with
  | [] => O
  | r :: _ => length r
  end.

(** [Mat::empty()]: no element at all. *)
Definition Mat_empty {A} (m : list (list A)) : bool :=
  (Nat.eqb (rows m) 0 || Nat.eqb (cols m) 0)%bool.

(** An ndarray has rows of one length. *)
Definition rectangular {A} (m : list (list A)) : Prop :=
  Forall (fun r => length r = cols m) m.

(** The shape of an array, row by row. *)
Definition shape {A} (m : list (list A)) : list nat := fmap length m.

(** Elementwise operation on an array of pixels ([img * 255], [x / 255.0],
    [astype]). *)
Definition img_map {A B} (f : A -> B) (img : image A) : image B :=
  fmap (fmap (M:=list) (pmap f)) img.

Definition is_u8 (v : Z) : Prop := 0 <= v <= 255.

Definition u8_pixel (p : pixel Z) : Prop :=
  is_u8 (chan chB p) /\ is_u8 (chan chG p) /\ is_u8 (chan chR p).

Definition u8_image (img : image Z) : Prop := Forall (Forall u8_pixel) img.

Definition sumZ (l : list Z) : Z := foldr Z.add 0 l.

(** ** The OpenCV calls of the script *)

Module cv2.

Inductive BorderTypes := BORDER_REPLICATE | BORDER_REFLECT | BORDER_REFLECT_101.

(** [saturate_cast<uchar>] on an integer. *)
Definition saturate_cast_uchar (v : Z) : Z := Z.max 0 (Z.min 255 v).

(** The [do ... while] of [borderInterpolate] for the reflecting borders:
    the body runs, then the loop goes on while [p] is outside [0, len). *)
Fixpoint reflect_loop (fuel : nat) (delta p len : Z) : Z :=
  match fuel with
  | O => p
  | S fuel' =>
      let p' := if p <? 0 then - p - 1 + delta
                else len - 1 - (p - len) - delta in
      if ((0 <=? p') && (p' <? len))%bool then p'
      else reflect_loop fuel' delta p' len
  end.

(** [cv::borderInterpolate(p, len, borderType)]: the source coordinate
    read for coordinate [p] of an axis of length [len]. *)
Definition borderInterpolate (p len : Z) (borderType : BorderTypes) : Z :=
  if ((0 <=? p) && (p <? len))%bool then p
  else match borderType with
       | BORDER_REPLICATE => if p <? 0 then 0 else len - 1
       | BORDER_REFLECT =>
           if len =? 1 then 0 else reflect_loop (Z.to_nat (Z.abs p)) 0 p len
       | BORDER_REFLECT_101 =>
           if len =? 1 then 0 else reflect_loop (Z.to_nat (Z.abs p)) 1 p len
       end.

(** Element ([y], [x]) of an array. *)
Definition at_ {A} (d : A) (m : list (list A)) (y x : Z) : A :=
  nth (Z.to_nat x) (nth (Z.to_nat y) m []) d.

(** The correlation sum of [filter2D] at ([y], [x]), the anchor at the
    kernel centre: sum over the kernel of
    [kernel(i, j) * src(y + i - anchor.y, x + j - anchor.x)]. *)
Definition correlate (src : Z -> Z -> Z) (kernel : list (list Z)) (y x : Z) : Z :=
  let ay := Z.of_nat (rows kernel) / 2 in
  let ax := Z.of_nat (cols kernel) / 2 in
  sumZ (imap (fun i krow =>
          sumZ (imap (fun j w =>
                  w * src (y + Z.of_nat i - ay) (x + Z.of_nat j - ax)) krow))
        kernel).

(** [cv2.filter2D(src, -1, kernel)] on an 8-bit 3-channel image: each
    channel on its own, default border BORDER_REFLECT_101, the result
    saturated to 8 bits (ddepth -1 keeps the depth of the source).  An
    empty source or kernel is rejected by an assertion. *)
Definition filter2D (src : image Z) (kernel : list (list Z)) : option (image Z) :=
  if (Mat_empty src || Mat_empty kernel)%bool then None
  else
    let h := Z.of_nat (rows src) in
    let w := Z.of_nat (cols src) in
    Some (fmap (fun y =>
            fmap (fun x =>
              mkpixel (fun c =>
                saturate_cast_uchar
                  (correlate
                     (fun yy xx =>
                        chan c (at_ (0, 0, 0) src
                                  (borderInterpolate yy h BORDER_REFLECT_101)
                                  (borderInterpolate xx w BORDER_REFLECT_101)))
                     kernel y x)))
              (seqZ 0 w))
            (seqZ 0 h)).

(** [cv2.cvtColor(src, cv2.COLOR_BGR2GRAY)] on 8-bit pixels: the fixed-point
    luma, weights 0.114, 0.587 and 0.299 scaled by 2^15, rounded by
    [CV_DESCALE]. *)
Definition BGR2GRAY (p : pixel Z) : Z :=
  Z.shiftr (chan chB p * 3735 + chan chG p * 19235 + chan chR p * 9798
            + Z.shiftl 1 14) 15.

Definition cvtColor_BGR2GRAY (src : image Z) : option plane :=
  if Mat_empty src then None else Some (fmap (fmap (M:=list) BGR2GRAY) src).

(** [cv2.cvtColor(src, cv2.COLOR_GRAY2BGR)]: the intensity copied to the
    three channels. *)
Definition GRAY2BGR (v : Z) : pixel Z := (v, v, v).

Definition cvtColor_GRAY2BGR (src : plane) : option (image Z) :=
  if Mat_empty src then None else Some (fmap (fmap (M:=list) GRAY2BGR) src).

Inductive AdaptiveThresholdTypes :=
  ADAPTIVE_THRESH_MEAN_C | ADAPTIVE_THRESH_GAUSSIAN_C.

Inductive ThresholdTypes := THRESH_BINARY | THRESH_BINARY_INV.

(** The 768-entry table of [adaptiveThreshold], indexed by
    [src - mean + 255]. *)
Definition threshold_tab (type : ThresholdTypes) (imaxval idelta : Z) (i : Z) : Z :=
  match type with
  | THRESH_BINARY => if i - 255 >? - idelta then imaxval else 0
  | THRESH_BINARY_INV => if i - 255 <=? - idelta then imaxval else 0
  end.

Section AdaptiveThreshold.

(** The local mean image of [adaptiveThreshold]: a box filter
    (ADAPTIVE_THRESH_MEAN_C) or a Gaussian blur (ADAPTIVE_THRESH_GAUSSIAN_C)
    over a [blockSize] x [blockSize] window with a replicated border,
    computed in floating point and converted back to 8 bits. *)
Variable local_mean : AdaptiveThresholdTypes -> plane -> Z -> plane.

(** [cv2.adaptiveThreshold(src, maxValue, adaptiveMethod, thresholdType,
    blockSize, C)] with integer [maxValue] and [C], as the script passes
    them.  [blockSize] must be odd and greater than 1. *)
Definition adaptiveThreshold (src : plane) (maxValue : Z)
    (adaptiveMethod : AdaptiveThresholdTypes) (thresholdType : ThresholdTypes)
    (blockSize C : Z) : option plane :=
  if negb ((blockSize mod 2 =? 1) && (1 <? blockSize))%bool then None
  else if maxValue <? 0 then Some (fmap (fmap (M:=list) (fun _ => 0)) src)
  else
    let mean := local_mean adaptiveMethod src blockSize in
    let imaxval := saturate_cast_uchar maxValue in
    let idelta := C in
    Some (imap (fun y row =>
            imap (fun x s =>
              threshold_tab thresholdType imaxval idelta
                (s - at_ 0 mean (Z.of_nat y) (Z.of_nat x) + 255)) row)
          src).

End AdaptiveThreshold.

End cv2.

(** ** [sharpen] *)

Definition sharpen (img : image Z) : option (image Z) :=
  let kernel := [[0; -1; 0];
                 [-1; 5; -1];
                 [0; -1; 0]] in
  let sharp_img := cv2.filter2D img kernel in
  sharp_img.

(** ** [adaptive_threshold] *)

Section Preprocessing.

Variable local_mean : cv2.AdaptiveThresholdTypes -> plane -> Z -> plane.

Definition adaptive_threshold (img : image Z) : option (image Z) :=
  gray ← cv2.cvtColor_BGR2GRAY img;
  bin_img ← cv2.adaptiveThreshold local_mean
    gray 255 cv2.ADAPTIVE_THRESH_GAUSSIAN_C
    cv2.THRESH_BINARY 11 2;
  cv2.cvtColor_GRAY2BGR bin_img.

End Preprocessing.

(** ** NumPy scalars

    Floating-point values are IEEE 754 binary32 and binary64 numbers, with
    the operations of the standard library's [SpecFloat] (round to nearest
    even). *)

Module np.

Definition f32_of_Z (n : Z) : spec_float := binary_normalize 24 128 n 0 false.

Definition f64_of_Z (n : Z) : spec_float := binary_normalize 53 1024 n 0 false.

Definition f32_mul (x y : spec_float) : spec_float := SFmul 24 128 x y.

Definition f64_mul (x y : spec_float) : spec_float := SFmul 53 1024 x y.

Definition f64_add (x y : spec_float) : spec_float := SFadd 53 1024 x y.

Definition f64_div (x y : spec_float) : spec_float := SFdiv 53 1024 x y.

(** A binary32 value seen as a binary64 value (exact). *)
Definition f64_of_f32 (x : spec_float) : spec_float :=
  match x with
  | S754_finite s m e => binary_normalize 53 1024 (cond_Zopp s (Zpos m)) e s
  | _ => x
  end.

(** Comparisons of binary64 values; false when an operand is NaN. *)
Definition f64_leb (x y : spec_float) : bool := SFleb x y.

Definition f64_eqb (x y : spec_float) : bool := SFeqb x y.

(** Rounding toward zero of a finite value, as a C cast to an integer does. *)
Definition trunc (x : spec_float) : Z :=
  match x with
  | S754_finite s m e =>
      cond_Zopp s (if 0 <=? e then Zpos m * 2 ^ e else Zpos m / 2 ^ (- e))
  | _ => 0
  end.

(** [x.astype(np.uint8)] on a float: truncation toward zero.  Outside
    [0, 256) the C cast is unspecified; the usual wrap to the low byte is
    taken (and 0 for NaN and the infinities). *)
Definition astype_uint8 (x : spec_float) : Z := trunc x mod 256.

(** [np.ceil] of a finite value, as an integer. *)
Definition ceil (x : spec_float) : Z :=
  match x with
  | S754_finite s m e =>
      if 0 <=? e then cond_Zopp s (Zpos m * 2 ^ e)
      else if s then - (Zpos m / 2 ^ (- e))
      else - ((- Zpos m) / 2 ^ (- e))
  | _ => 0
  end.

(** The summation of [np.add.reduce] over a contiguous binary64 array
    (NumPy's [DOUBLE_pairwise_sum]).  Fewer than 8 elements are added from
    left to right, starting from -0.0.  Up to 128 elements are added into
    8 accumulators, element [i] into accumulator [i mod 8]; the
    accumulators are then added as a balanced tree and the last
    [n mod 8] elements are added to the result one by one.  A longer
    array is cut at [n / 2] rounded down to a multiple of 8 and the sums of
    the two parts are added. *)
Fixpoint accumulate (r : list spec_float) (blocks : nat) (a : list spec_float)
    : list spec_float * list spec_float :=
  match blocks with
  | O => (r, a)
  | S blocks' => accumulate (zip_with f64_add r (take 8 a)) blocks' (drop 8 a)
  end.

Definition block_sum (a : list spec_float) : spec_float :=
  let '(r, rest) := accumulate (take 8 a) (length a / 8 - 1) (drop 8 a) in
  match r with
  | [r0; r1; r2; r3; r4; r5; r6; r7] =>
      let res := f64_add (f64_add (f64_add r0 r1) (f64_add r2 r3))
                         (f64_add (f64_add r4 r5) (f64_add r6 r7)) in
      foldl f64_add res rest
  | _ => S754_nan
  end.

(** [fuel] bounds the depth of the cuts; the length of the array is
    enough. *)
Fixpoint pairwise_sum (fuel : nat) (a : list spec_float) : spec_float :=
  let n := length a in
  if (n <? 8)%nat then foldl f64_add (S754_zero true) a
  else if (n <=? 128)%nat then block_sum a
  else
    match fuel with
    | O => S754_nan
    | S fuel' =>
        let n2 := (n / 2 - (n / 2) mod 8)%nat in
        f64_add (pairwise_sum fuel' (take n2 a)) (pairwise_sum fuel' (drop n2 a))
    end.

(** [np.sum(l)] of a list of floats: the reduction starts from the
    identity 0.0. *)
Definition sum (l : list spec_float) : spec_float :=
  f64_add (S754_zero false) (pairwise_sum (length l) l).

(** [np.mean(l)] of a list of floats: their sum divided by their number.
    For the empty list this is 0.0 / 0 = NaN. *)
Definition mean (l : list spec_float) : spec_float :=
  f64_div (sum l) (f64_of_Z (Z.of_nat (length l))).

End np.

(** ** [preprocess_batch] *)

(** The batch is the list of its images.  [np.array] stacks the results of
    the preprocessing function, which have one shape whenever the
    function keeps the shape of the images of a batch; NumPy's refusal to
    stack results of different shapes is not part of this model. *)
Definition preprocess_batch (batch_x : list (image spec_float))
    (preprocess_func : image Z -> option (image Z))
    : option (list (image spec_float)) :=
  batch_x ← mapM (fun img =>
               preprocess_func
                 (img_map np.astype_uint8
                    (img_map (fun v => np.f32_mul v (np.f32_of_Z 255)) img)))
             batch_x;
  let batch_x :=
    fmap (img_map (fun v => np.f64_div (np.f64_of_Z v) (np.f64_of_Z 255))) batch_x in
  Some batch_x.

(** ** Script parameters *)

Definition DATASET_DIR : string := "/kaggle/input/garbage/photos".
Definition IMG_SIZE : nat * nat := (128%nat, 128%nat).
Definition BATCH_SIZE : nat := 32.
Definition EPOCHS : nat := 40.

(** ** The dataset directory: [os.walk] *)

Module os.

(** A directory tree: files, and directories with their entries. *)
#[warnings="-register-all"]
Inductive entry :=
| File (name : string)
| Dir (name : string) (entries : list entry).

Definition name_of (e : entry) : string :=
  match e with
  | File n => n
  | Dir n _ => n
  end.

Definition dirnames (es : list entry) : list string :=
  omap (fun e => match e with Dir n _ => Some n | File _ => None end) es.

Definition filenames (es : list entry) : list string :=
  omap (fun e => match e with File n => Some n | Dir _ _ => None end) es.

(** The components of a path, split at the separator. *)
Fixpoint split_path (acc : string) (p : string) : list string :=
  match p with
  | EmptyString => if decide (acc = EmptyString) then [] else [acc]
  | String c p' =>
      if Ascii.eqb c "/"%char then
        (if decide (acc = EmptyString) then [] else [acc]) ++ split_path EmptyString p'
      else split_path (acc +:+ String c EmptyString) p'
  end.

(** The entry a list of path components leads to, from a directory's
    entries. *)
Fixpoint resolve (parts : list string) (root : entry) : option entry :=
  match parts with
  | [] => Some root
  | n :: parts' =>
      match root with
      | File _ => None
      | Dir _ es =>
          e ← List.find (fun e => String.eqb (name_of e) n) es;
          resolve parts' e
      end
  end.

(** [next(os.walk(top))]: the first triple (dirpath, dirnames, filenames)
    of the walk.  [os.walk] swallows the error of a missing or non-directory
    [top] and yields nothing, so that [next] raises. *)
Definition walk_first (fs : entry) (top : string)
    : option (string * list string * list string) :=
  e ← resolve (split_path EmptyString top) fs;
  match e with
  | Dir _ es => Some (top, dirnames es, filenames es)
  | File _ => None
  end.

End os.

(** [num_classes = len(next(os.walk(DATASET_DIR))[1])] *)
Definition num_classes (fs : os.entry) : option nat :=
  t ← os.walk_first fs DATASET_DIR;
  Some (length (snd (fst t))).

(** ** The network: [build_model] *)

Module keras.

Inductive activation := relu | softmax.

Inductive layer :=
| Conv2D (filters : nat) (kernel_size : nat * nat) (act : activation)
| MaxPooling2D (pool_size : nat) (strides : nat)
| Flatten
| Dense (units : nat) (act : activation)
| Dropout (rate : spec_float).

Inductive optimizer := Adam.
Inductive loss := categorical_crossentropy.
Inductive metric := accuracy.

(** A compiled [Sequential] model, as a description. *)
Record Sequential := {
  input_shape : list nat;
  layers : list layer;
  model_optimizer : optimizer;
  model_loss : loss;
  model_metrics : list metric
}.

(** The output shape of a layer on an input shape (without the batch
    axis); [None] where Keras rejects the shape.  Convolutions use the
    default 'valid' padding and stride 1. *)
Definition layer_output_shape (l : layer) (s : list nat) : option (list nat) :=
  match l, s with
  | Conv2D f (kh, kw) _, [h; w; _] =>
      if decide (kh <= h /\ kw <= w /\ 0 < kh /\ 0 < kw)%nat
      then Some [h - kh + 1; w - kw + 1; f]%nat else None
  | MaxPooling2D p st, [h; w; c] =>
      if decide (p <= h /\ p <= w /\ 0 < p /\ 0 < st)%nat
      then Some [(h - p) / st + 1; (w - p) / st + 1; c]%nat else None
  | Flatten, s => Some [foldr Nat.mul 1%nat s]
  | Dense u _, [_] => Some [u]
  | Dropout _, s => Some s
  | _, _ => None
  end.

Definition output_shape (m : Sequential) : option (list nat) :=
  foldl (fun s l => s ≫= layer_output_shape l) (Some (input_shape m)) (layers m).

End keras.

Definition build_model (num_classes : nat) : keras.Sequential :=
  let model := {|
    keras.input_shape := [fst IMG_SIZE; snd IMG_SIZE; 3%nat];
    keras.layers := [
      keras.Conv2D 32 (3%nat, 3%nat) keras.relu;
      keras.MaxPooling2D 2 2;
      keras.Conv2D 64 (3%nat, 3%nat) keras.relu;
      keras.MaxPooling2D 2 2;
      keras.Flatten;
      keras.Dense 128 keras.relu;
      keras.Dropout (S754_finite false 4503599627370496 (-53));
      keras.Dense num_classes keras.softmax
    ];
    keras.model_optimizer := keras.Adam;
    keras.model_loss := keras.categorical_crossentropy;
    keras.model_metrics := [keras.accuracy]
  |} in
  model.

(** ** The tabular notebook: label encoding and the train/test split *)

Module sklearn.

Definition str_le (a b : string) : Prop := String.leb a b = true.

#[global] Instance str_le_dec (a b : string) : Decision (str_le a b).
Proof. unfold str_le. apply _. Defined.

(** The distinct values in increasing order ([sorted(set(values))]). *)
Definition unique (values : list string) : list string :=
  merge_sort str_le (remove_dups values).

(** The position of a value in the array of classes. *)
Definition index_of (uniques : list string) (v : string) : option nat :=
  fst <$> list_find (fun u => u = v) uniques.

(** [LabelEncoder().fit_transform(y)]: the classes seen, sorted, and each
    label replaced by the position of its class.  A label outside the
    classes is an error. *)
Definition fit_transform (y : list string) : option (list string * list nat) :=
  let classes_ := unique y in
  codes ← mapM (index_of classes_) y;
  Some (classes_, codes).

(** The sizes of the two parts for a fractional [test_size] and no
    [train_size]: [n_test = ceil(test_size * n_samples)],
    [n_train = n_samples - n_test]; an empty training part is an error. *)
Definition validate_shuffle_split (n_samples : nat) (test_size : spec_float)
    : option (nat * nat) :=
  if negb (SFltb (S754_zero false) test_size && SFltb test_size (np.f64_of_Z 1))
  then None
  else
    let n_test := np.ceil (np.f64_mul test_size (np.f64_of_Z (Z.of_nat n_samples))) in
    let n_train := Z.of_nat n_samples - n_test in
    if n_train <=? 0 then None
    else Some (Z.to_nat n_train, Z.to_nat n_test).

(** [a[indices]] on the rows of a table. *)
Definition safe_indexing {A} (a : list A) (indices : list nat) : option (list A) :=
  mapM (fun i => a !! i) indices.

Section Split.

(** The state of a NumPy random generator, a generator seeded from an
    integer, and [rng.permutation(n)]: a shuffled [range(n)] and the
    advanced state. *)
Context {RandomState : Type}.
Variable seeded : Z -> RandomState.
Variable permutation : RandomState -> nat -> list nat * RandomState.

(** [check_random_state]: the process-wide generator for [None], a fresh
    generator for an integer seed. *)
Definition check_random_state (random_state : option Z) (global : RandomState)
    : RandomState :=
  match random_state with
  | None => global
  | Some seed => seeded seed
  end.

(** [train_test_split(X, y, test_size=..., random_state=...)], run with the
    process-wide generator in state [global]: the four parts (or an error)
    and the state of the process-wide generator afterwards. *)
Definition train_test_split {A B} (X : list A) (y : list B)
    (test_size : spec_float) (random_state : option Z) (global : RandomState)
    : option (list A * list A * list B * list B) * RandomState :=
  if negb (Nat.eqb (length X) (length y)) then (None, global)
  else
    match validate_shuffle_split (length X) test_size with
    | None => (None, global)
    | Some (n_train, n_test) =>
        let rng := check_random_state random_state global in
        let '(perm, rng') := permutation rng (length X) in
        let ind_test := take n_test perm in
        let ind_train := take n_train (drop n_test perm) in
        (X_train ← safe_indexing X ind_train;
         X_test ← safe_indexing X ind_test;
         y_train ← safe_indexing y ind_train;
         y_test ← safe_indexing y ind_test;
         Some (X_train, X_test, y_train, y_test),
         match random_state with
         | None => rng'
         | Some _ => global
         end)
    end.

End Split.

End sklearn.

(** The float literal [0.2]. *)
Definition test_size_literal : spec_float := S754_finite false 7205759403792794 (-55).

Section Notebook.

Context {RandomState : Type}.
Variable seeded : Z -> RandomState.
Variable permutation : RandomState -> nat -> list nat * RandomState.

(** The encoding and splitting cells of the notebook on a table whose rows
    are the feature columns and the Category label: the encoded column, and
    [X_train, X_test, y_train, y_test]. *)
Definition encode_and_split {F} (data : list (F * string)) (global : RandomState)
    : option (list nat * (list F * list F * list nat * list nat)) * RandomState :=
  match sklearn.fit_transform (fmap snd data) with
  | None => (None, global)
  | Some (_, Category) =>
      let X := fmap fst data in
      let y := Category in
      let '(parts, global') :=
        sklearn.train_test_split seeded permutation X y test_size_literal (Some 42) global in
      (p ← parts; Some (Category, p), global')
  end.

End Notebook.

(** ** The training script

    The script's objects live in a heap; a variable of the script holds a
    reference.  Framework calls may also read and change process-wide
    library state (NumPy's random generator, the TensorFlow runtime), the
    [World]. *)

Inductive subset := training | validation.

Section Training.

Context {Model Gen World Labels : Type}.

Variable local_mean : cv2.AdaptiveThresholdTypes -> plane -> Z -> plane.

(** [datagen.flow_from_directory(directory, subset=..., shuffle=...)] with
    the target size, batch size and class mode the subclass fixes. *)
Variable flow_from_directory : string -> subset -> bool -> World -> Gen * World.
(** The [samples] attribute of a directory iterator. *)
Variable samples : Gen -> nat.
(** [next(generator)]: a batch of images scaled to [0, 1] and its labels. *)
Variable next_batch :
  Gen -> World -> (list (image spec_float) * Labels) * Gen * World.
(** A model object built from its description, with fresh weights. *)
Variable new_model : keras.Sequential -> World -> Model * World.
(** [model.train_on_batch(x, y)] and [model.test_on_batch(x, y)]: loss and
    accuracy on the batch. *)
Variable train_on_batch :
  Model -> list (image spec_float) -> Labels -> World ->
  (spec_float * spec_float) * Model * World.
Variable test_on_batch :
  Model -> list (image spec_float) -> Labels -> World ->
  (spec_float * spec_float) * Model * World.

Inductive object :=
| PyList (l : list spec_float)
| PyModel (m : Model)
| PyGen (g : Gen).

Record state := { heap : list object; world : World }.

(** A statement: it fails (an uncaught exception ends the script) or
    returns a value and the next state. *)
Definition prog (A : Type) : Type := state -> option (A * state).

#[global] Instance prog_ret : MRet prog := fun A a s => Some (a, s).

#[global] Instance prog_bind : MBind prog := fun A B f m s =>
  match m s with
  | Some (a, s') => f a s'
  | None => None
  end.

Definition raise {A} : prog A := fun _ => None.

Definition lift {A} (o : option A) : prog A := fun s =>
  match o with
  | Some a => Some (a, s)
  | None => None
  end.

Definition with_world {A} (f : World -> A * World) : prog A := fun s =>
  let '(a, w) := f (world s) in
  Some (a, {| heap := heap s; world := w |}).

(** A new object, at a reference no variable holds yet. *)
Definition alloc (o : object) : prog nat := fun s =>
  Some (length (heap s), {| heap := heap s ++ [o]; world := world s |}).

Definition load (l : nat) : prog object := fun s =>
  match heap s !! l with
  | Some o => Some (o, s)
  | None => None
  end.

Definition store (l : nat) (o : object) : prog unit := fun s =>
  if decide (l < length (heap s))%nat
  then Some (tt, {| heap := <[l := o]> (heap s); world := world s |})
  else None.

(** [lst.append(v)] *)
Definition list_append (lst : nat) (v : spec_float) : prog unit :=
  o ← load lst;
  match o with
  | PyList l => store lst (PyList (l ++ [v]))
  | _ => raise
  end.

(** [next(gen)] *)
Definition next (gen : nat) : prog (list (image spec_float) * Labels) :=
  o ← load gen;
  match o with
  | PyGen g =>
      r ← with_world (fun w => let '(b, g', w') := next_batch g w in ((b, g'), w'));
      store gen (PyGen (snd r));;
      mret (fst r)
  | _ => raise
  end.

(** [gen.samples] *)
Definition get_samples (gen : nat) : prog nat :=
  o ← load gen;
  match o with
  | PyGen g => mret (samples g)
  | _ => raise
  end.

Definition call_on_batch
    (f : Model -> list (image spec_float) -> Labels -> World ->
         (spec_float * spec_float) * Model * World)
    (model : nat) (batch_x : list (image spec_float)) (batch_y : Labels)
    : prog (spec_float * spec_float) :=
  o ← load model;
  match o with
  | PyModel m =>
      r ← with_world (fun w => let '(la, m', w') := f m batch_x batch_y w in ((la, m'), w'));
      store model (PyModel (snd r));;
      mret (fst r)
  | _ => raise
  end.

(** [for x in l: body], threading the local variables [acc] the body
    rebinds. *)
Fixpoint for_each {A S} (body : A -> S -> prog S) (l : list A) (acc : S) : prog S :=
  match l with
  | [] => mret acc
  | x :: l' => acc' ← body x acc; for_each body l' acc'
  end.

(** [for i in range(n): body] *)
Definition for_range {S} (n : nat) (body : nat -> S -> prog S) (acc : S) : prog S :=
  for_each body (seq 0 n) acc.

(** The global variables of the script: references to the generators, the
    models and the eight history lists, and the integer step counts. *)
Record globals := {
  train_gen_bin : nat;
  test_gen_bin : nat;
  train_gen_sharp : nat;
  test_gen_sharp : nat;
  steps_train_bin : nat;
  steps_test_bin : nat;
  steps_train_sharp : nat;
  steps_test_sharp : nat;
  model_bin : nat;
  model_sharp : nat;
  train_loss_bin : nat;
  val_loss_bin : nat;
  train_acc_bin : nat;
  val_acc_bin : nat;
  train_loss_sharp : nat;
  val_loss_sharp : nat;
  train_acc_sharp : nat;
  val_acc_sharp : nat
}.

(** [datagen.flow_from_directory(DATASET_DIR, subset=..., shuffle=...)]:
    a new iterator object. *)
Definition new_generator (sub : subset) (shuffle : bool) : prog nat :=
  g ← with_world (flow_from_directory DATASET_DIR sub shuffle);
  alloc (PyGen g).

(** [build_model(num_classes)]: a new model object.  The constructor is
    total: it is Keras's for a positive class count (for a dataset
    directory without class subdirectory Keras refuses the last layer,
    which has no unit). *)
Definition new_model_object (num_classes : nat) : prog nat :=
  m ← with_world (new_model (build_model num_classes));
  alloc (PyModel m).

(** The statements before the loops: class count, generators, step counts,
    models and the empty history lists. *)
Definition setup (fs : os.entry) : prog globals :=
  num_classes ← lift (num_classes fs);
  train_gen_bin ← new_generator training true;
  test_gen_bin ← new_generator validation false;
  train_gen_sharp ← new_generator training true;
  test_gen_sharp ← new_generator validation false;
  train_gen_bin_samples ← get_samples train_gen_bin;
  let steps_train_bin := (train_gen_bin_samples / BATCH_SIZE)%nat in
  test_gen_bin_samples ← get_samples test_gen_bin;
  let steps_test_bin := (test_gen_bin_samples / BATCH_SIZE)%nat in
  train_gen_sharp_samples ← get_samples train_gen_sharp;
  let steps_train_sharp := (train_gen_sharp_samples / BATCH_SIZE)%nat in
  test_gen_sharp_samples ← get_samples test_gen_sharp;
  let steps_test_sharp := (test_gen_sharp_samples / BATCH_SIZE)%nat in
  model_bin ← new_model_object num_classes;
  model_sharp ← new_model_object num_classes;
  train_loss_bin ← alloc (PyList []);
  val_loss_bin ← alloc (PyList []);
  train_acc_bin ← alloc (PyList []);
  val_acc_bin ← alloc (PyList []);
  train_loss_sharp ← alloc (PyList []);
  val_loss_sharp ← alloc (PyList []);
  train_acc_sharp ← alloc (PyList []);
  val_acc_sharp ← alloc (PyList []);
  mret {|
    train_gen_bin := train_gen_bin; test_gen_bin := test_gen_bin;
    train_gen_sharp := train_gen_sharp; test_gen_sharp := test_gen_sharp;
    steps_train_bin := steps_train_bin; steps_test_bin := steps_test_bin;
    steps_train_sharp := steps_train_sharp; steps_test_sharp := steps_test_sharp;
    model_bin := model_bin; model_sharp := model_sharp;
    train_loss_bin := train_loss_bin; val_loss_bin := val_loss_bin;
    train_acc_bin := train_acc_bin; val_acc_bin := val_acc_bin;
    train_loss_sharp := train_loss_sharp; val_loss_sharp := val_loss_sharp;
    train_acc_sharp := train_acc_sharp; val_acc_sharp := val_acc_sharp
  |}.

(** The loop that trains the thresholded-image classifier. *)
Definition train_binary (G : globals) : prog unit :=
  for_range EPOCHS (fun epoch _ =>
    '(epoch_train_loss, epoch_train_acc) ←
      for_range (steps_train_bin G) (fun step '(epoch_train_loss, epoch_train_acc) =>
        '(batch_x, batch_y) ← next (train_gen_bin G);
        batch_x ← lift (preprocess_batch batch_x (adaptive_threshold local_mean));
        '(loss, acc) ← call_on_batch train_on_batch (model_bin G) batch_x batch_y;
        mret (epoch_train_loss ++ [loss], epoch_train_acc ++ [acc]))
      ([], []);
    list_append (train_loss_bin G) (np.mean epoch_train_loss);;
    list_append (train_acc_bin G) (np.mean epoch_train_acc);;
    '(val_acc, val_loss) ←
      for_range (steps_test_bin G) (fun step '(val_acc, val_loss) =>
        '(batch_x, batch_y) ← next (test_gen_bin G);
        batch_x ← lift (preprocess_batch batch_x (adaptive_threshold local_mean));
        '(loss, acc) ← call_on_batch test_on_batch (model_bin G) batch_x batch_y;
        mret (val_acc ++ [acc], val_loss ++ [loss]))
      ([], []);
    list_append (val_loss_bin G) (np.mean val_loss);;
    list_append (val_acc_bin G) (np.mean val_acc))
  tt.

(** The loop that trains the sharpened-image classifier. *)
Definition train_sharpen (G : globals) : prog unit :=
  for_range EPOCHS (fun epoch _ =>
    '(epoch_train_loss, epoch_train_acc) ←
      for_range (steps_train_sharp G) (fun step '(epoch_train_loss, epoch_train_acc) =>
        '(batch_x, batch_y) ← next (train_gen_sharp G);
        batch_x ← lift (preprocess_batch batch_x sharpen);
        '(loss, acc) ← call_on_batch train_on_batch (model_sharp G) batch_x batch_y;
        mret (epoch_train_loss ++ [loss], epoch_train_acc ++ [acc]))
      ([], []);
    list_append (train_loss_sharp G) (np.mean epoch_train_loss);;
    list_append (train_acc_sharp G) (np.mean epoch_train_acc);;
    '(val_acc, val_loss) ←
      for_range (steps_test_sharp G) (fun step '(val_acc, val_loss) =>
        '(batch_x, batch_y) ← next (test_gen_sharp G);
        batch_x ← lift (preprocess_batch batch_x sharpen);
        '(loss, acc) ← call_on_batch test_on_batch (model_sharp G) batch_x batch_y;
        mret (val_acc ++ [acc], val_loss ++ [loss]))
      ([], []);
    list_append (val_loss_sharp G) (np.mean val_loss);;
    list_append (val_acc_sharp G) (np.mean val_acc))
  tt.

(** The script up to the end of the second loop. *)
Definition script (fs : os.entry) : prog globals :=
  G ← setup fs;
  train_binary G;;
  train_sharpen G;;
  mret G.

(** The state the script starts from: no object yet. *)
Definition initial (w : World) : state := {| heap := []; world := w |}.

(** The list a variable refers to. *)
Definition list_at (s : state) (l : nat) : option (list spec_float) :=
  match heap s !! l with
  | Some (PyList xs) => Some xs
  | _ => None
  end.

(** One epoch of either loop: the generators, the model, the four history
    lists, the preprocessing function and the step counts are the only
    things the two loops of the script differ in. *)
Definition training_epoch (gen_train gen_test model : nat)
    (train_loss_list val_loss_list train_acc_list val_acc_list : nat)
    (preprocess_func : image Z -> option (image Z))
    (steps_train steps_test : nat) : prog unit :=
  '(epoch_train_loss, epoch_train_acc) ←
    for_range steps_train (fun step '(epoch_train_loss, epoch_train_acc) =>
      '(batch_x, batch_y) ← next gen_train;
      batch_x ← lift (preprocess_batch batch_x preprocess_func);
      '(loss, acc) ← call_on_batch train_on_batch model batch_x batch_y;
      mret (epoch_train_loss ++ [loss], epoch_train_acc ++ [acc]))
    ([], []);
  list_append train_loss_list (np.mean epoch_train_loss);;
  list_append train_acc_list (np.mean epoch_train_acc);;
  '(val_acc, val_loss) ←
    for_range steps_test (fun step '(val_acc, val_loss) =>
      '(batch_x, batch_y) ← next gen_test;
      batch_x ← lift (preprocess_batch batch_x preprocess_func);
      '(loss, acc) ← call_on_batch test_on_batch model batch_x batch_y;
      mret (val_acc ++ [acc], val_loss ++ [loss]))
    ([], []);
  list_append val_loss_list (np.mean val_loss);;
  list_append val_acc_list (np.mean val_acc).

Definition training_loop (gen_train gen_test model : nat)
    (train_loss_list val_loss_list train_acc_list val_acc_list : nat)
    (preprocess_func : image Z -> option (image Z))
    (steps_train steps_test epochs : nat) : prog unit :=
  for_range epochs (fun epoch _ =>
    training_epoch gen_train gen_test model
      train_loss_list val_loss_list train_acc_list val_acc_list
      preprocess_func steps_train steps_test)
  tt.

(** The objects of each variant. *)
Definition bin_objects (G : globals) : list nat :=
  [train_gen_bin G; test_gen_bin G; model_bin G;
   train_loss_bin G; val_loss_bin G; train_acc_bin G; val_acc_bin G].

Definition sharp_objects (G : globals) : list nat :=
  [train_gen_sharp G; test_gen_sharp G; model_sharp G;
   train_loss_sharp G; val_loss_sharp G; train_acc_sharp G; val_acc_sharp G].

Definition bin_histories (G : globals) : list nat :=
  [train_loss_bin G; train_acc_bin G; val_loss_bin G; val_acc_bin G].

Definition sharp_histories (G : globals) : list nat :=
  [train_loss_sharp G; train_acc_sharp G; val_loss_sharp G; val_acc_sharp G].

(** Two objects of the same Python type. *)
Definition same_kind (o o' : object) : Prop :=
  match o, o' with
  | PyList _, PyList _ => True
  | PyModel _, PyModel _ => True
  | PyGen _, PyGen _ => True
  | _, _ => False
  end.

(** From [s] to [s'] no object was created, every object kept its type,
    and only objects at the references [W] may have changed. *)
Definition evolves (W : list nat) (s s' : state) : Prop :=
  length (heap s') = length (heap s) /\
  forall l o, heap s !! l = Some o ->
    exists o', heap s' !! l = Some o' /\ same_kind o o' /\ (l ∉ W -> o' = o).

(** The statement [m] runs from [s] without an exception, and its result
    and final state satisfy [Q]. *)
Definition runs {A} (m : prog A) (s : state) (Q : A -> state -> Prop) : Prop :=
  exists a s', m s = Some (a, s') /\ Q a s'.

Definition is_gen (s : state) (l : nat) : Prop :=
  exists g, heap s !! l = Some (PyGen g).

Definition is_model (s : state) (l : nat) : Prop :=
  exists m, heap s !! l = Some (PyModel m).

Definition is_list (s : state) (l : nat) : Prop :=
  exists xs, heap s !! l = Some (PyList xs).

(** The images of a batch as the directory iterator yields them: arrays
    with at least one pixel. *)
Definition batch_images_ok (batch_x : list (image spec_float)) : Prop :=
  Forall (fun img => Mat_empty img = false /\ rectangular img) batch_x.

(** The step count [steps] is the sample count of the generator at [gen],
    divided by the batch size and rounded down. *)
Definition steps_from (s : state) (gen steps : nat) : Prop :=
  exists g, heap s !! gen = Some (PyGen g) /\ steps = (samples g / BATCH_SIZE)%nat.

(** What the statements before the loops establish: fourteen distinct
    objects of the right types, empty history lists, and step counts taken
    from the generators. *)
Definition after_setup (G : globals) (s0 : state) : Prop :=
  NoDup (bin_objects G ++ sharp_objects G) /\
  is_gen s0 (train_gen_bin G) /\ is_gen s0 (test_gen_bin G) /\
  is_gen s0 (train_gen_sharp G) /\ is_gen s0 (test_gen_sharp G) /\
  is_model s0 (model_bin G) /\ is_model s0 (model_sharp G) /\
  Forall (fun l => heap s0 !! l = Some (PyList []))
    (bin_histories G ++ sharp_histories G) /\
  steps_from s0 (train_gen_bin G) (steps_train_bin G) /\
  steps_from s0 (test_gen_bin G) (steps_test_bin G) /\
  steps_from s0 (train_gen_sharp G) (steps_train_sharp G) /\
  steps_from s0 (test_gen_sharp G) (steps_test_sharp G) /\
  (exists w1, steps_test_bin G =
     (samples (fst (flow_from_directory DATASET_DIR validation false w1)) / BATCH_SIZE)%nat) /\
  (exists w3, steps_test_sharp G =
     (samples (fst (flow_from_directory DATASET_DIR validation false w3)) / BATCH_SIZE)%nat).

End Training.

(** ** After the loops: saving the models and the final evaluation *)

Section Evaluation.

Context {Model Gen World Labels : Type}.

Variable local_mean : cv2.AdaptiveThresholdTypes -> plane -> Z -> plane.
Variable next_batch :
  Gen -> World -> (list (image spec_float) * Labels) * Gen * World.
Variable test_on_batch :
  Model -> list (image spec_float) -> Labels -> World ->
  (spec_float * spec_float) * Model * World.
(** [model.save(path)] writes a file. *)
Variable save : Model -> string -> World -> World.
(** [gen.reset()] puts the iterator back at its first batch. *)
Variable reset : Gen -> Gen.

(** [model.save(path)] *)
Definition model_save (model : nat) (path : string) : prog (Model:=Model) (Gen:=Gen) (World:=World) unit :=
  o ← load model;
  match o with
  | PyModel m => with_world (fun w => (tt, save m path w))
  | _ => raise
  end.

(** [gen.reset()] *)
Definition gen_reset (gen : nat) : prog (Model:=Model) (Gen:=Gen) (World:=World) unit :=
  o ← load gen;
  match o with
  | PyGen g => store gen (PyGen (reset g))
  | _ => raise
  end.

(** The statements after the loops, up to the two printed accuracies,
    which are returned: both models are saved, both validation generators
    are reset, and each model is evaluated once more over its validation
    steps. *)
Definition final_evaluation (G : globals) : prog (spec_float * spec_float) :=
  model_save (model_bin G) "model_bin.h5";;
  model_save (model_sharp G) "model_sharp.h5";;
  gen_reset (test_gen_bin G);;
  gen_reset (test_gen_sharp G);;
  acc_bin ←
    for_range (steps_test_bin G) (fun step acc_bin =>
      '(batch_x, batch_y) ← next next_batch (test_gen_bin G);
      batch_x ← lift (preprocess_batch batch_x (adaptive_threshold local_mean));
      '(loss, acc) ← call_on_batch test_on_batch (model_bin G) batch_x batch_y;
      mret (acc_bin ++ [acc]))
    [];
  acc_sharp ←
    for_range (steps_test_sharp G) (fun step acc_sharp =>
      '(batch_x, batch_y) ← next next_batch (test_gen_sharp G);
      batch_x ← lift (preprocess_batch batch_x sharpen);
      '(loss, acc) ← call_on_batch test_on_batch (model_sharp G) batch_x batch_y;
      mret (acc_sharp ++ [acc]))
    [];
  mret (np.mean acc_bin, np.mean acc_sharp).

End Evaluation.

(** The objects the final evaluation works on. *)
Definition evaluation_objects (G : globals) : list nat :=
  [test_gen_bin G; model_bin G; test_gen_sharp G; model_sharp G].

(** Saving a model leaves a trace in the world; a reset iterator is the
    iterator itself. *)
Definition toy_save (_ : unit) (_ : string) (w : nat) : nat := S w.

Definition toy_reset (g : nat) : nat := g.

(** A directory iterator over fewer images than a batch holds. *)
Definition toy_flow_small (_ : string) (sub : subset) (_ : bool) (w : nat) : nat * nat :=
  (match sub with training => 24%nat | validation => 6%nat end, S w).

(** ** Vocabulary of the statements *)

(** The sum of the weights of a kernel. *)
Definition kernel_sum (kernel : list (list Z)) : Z := sumZ (sumZ <$> kernel).

(** Every pixel of the image is [p]. *)
Definition uniform (p : pixel Z) (img : image Z) : Prop :=
  Forall (Forall (eq p)) img.

(** A pixel of a binary image replicated over the channels: the three
    channels hold one value, 0 or 255. *)
Definition binary_pixel (p : pixel Z) : Prop :=
  exists v, (v = 0 \/ v = 255) /\ p = (v, v, v).

(** Pixel ([y], [x]) of an image, when it has one. *)
Definition pixel_at {A} (img : list (list A)) (y x : nat) : option A :=
  img !! y ≫= fun row => row !! x.

(** A binary64 value in the interval [0, 1]. *)
Definition in_unit_interval (x : spec_float) : Prop :=
  np.f64_leb (S754_zero false) x = true /\ np.f64_leb x (np.f64_of_Z 1) = true.


(** A preprocessing function as [preprocess_batch] expects it: on an 8-bit
    image it returns an 8-bit image of the same shape. *)
Definition shape_preserving (f : image Z -> option (image Z)) : Prop :=
  forall img, Mat_empty img = false -> rectangular img -> u8_image img ->
    exists out, f img = Some out /\ shape out = shape img /\ u8_image out.

(** The binary32 value 0.5. *)
Definition one_half : spec_float := S754_finite false 8388608 (-24).

Definition is_dir (e : os.entry) : bool :=
  match e with
  | os.Dir _ _ => true
  | os.File _ => false
  end.

(** *** A small concrete pipeline

    Two class directories, 80 training and 20 validation samples, batches
    of one 1 x 1 image, a model whose loss and accuracy are always 1, and
    the intensity itself as local mean.  The process-wide state counts the
    framework calls. *)

Definition toy_fs : os.entry :=
  os.Dir "" [os.Dir "kaggle" [os.Dir "input" [os.Dir "garbage"
    [os.Dir "photos" [os.Dir "glass" [os.File "g1.jpg"];
                      os.File "README";
                      os.Dir "paper" [os.File "p1.jpg"]]]]]].

(** A table of 100 rows over three categories. *)
Definition toy_table : list (nat * string) :=
  imap (fun i _ => (i, nth (i mod 3) ["glass"; "metal"; "paper"]%string ""%string))
    (replicate 100 tt).

(** A generator of permutations that reverses [range(n)] and has no state. *)
Definition toy_permutation (rng : unit) (n : nat) : list nat * unit :=
  (reverse (seq 0 n), rng).

Definition toy_local_mean (_ : cv2.AdaptiveThresholdTypes) (src : plane) (_ : Z)
    : plane := src.

Definition toy_flow (_ : string) (sub : subset) (_ : bool) (w : nat) : nat * nat :=
  (match sub with training => 80%nat | validation => 20%nat end, S w).

Definition toy_samples (g : nat) : nat := g.

Definition toy_next_batch (g : nat) (w : nat)
    : (list (image spec_float) * unit) * nat * nat :=
  (([[[(one_half, one_half, one_half)]]], tt), g, S w).

Definition toy_new_model (_ : keras.Sequential) (w : nat) : unit * nat := (tt, S w).

Definition toy_on_batch (m : unit) (_ : list (image spec_float)) (_ : unit) (w : nat)
    : (spec_float * spec_float) * unit * nat :=
  ((np.f64_of_Z 1, np.f64_of_Z 1), m, S w).

(** Every channel of every pixel is 0 or 255. *)
Definition binary_image (img : image Z) : Prop :=
  Forall (Forall (fun p : pixel Z => forall c, chan c p = 0 \/ chan c p = 255)) img.

(** [(img * 255).astype(np.uint8)]: the 8-bit image [preprocess_batch]
    hands to the preprocessing function. *)
Definition denormalize (img : image spec_float) : image Z :=
  img_map np.astype_uint8 (img_map (fun v => np.f32_mul v (np.f32_of_Z 255)) img).

(** [x / 255.0] on an 8-bit image. *)
Definition renormalize (img : image Z) : image spec_float :=
  img_map (fun v => np.f64_div (np.f64_of_Z v) (np.f64_of_Z 255)) img.

(** A binary64 value rounded to binary32. *)
Definition astype_float32 (x : spec_float) : spec_float :=
  match x with
  | S754_finite s m e => binary_normalize 24 128 (cond_Zopp s (Zpos m)) e s
  | _ => x
  end.

(** The generators are built with [rescale=1./255]: a loaded 8-bit value
    [k] reaches the script as the binary32 product of [k] and the factor.
    [rescale] forms the product in binary32 (NumPy's multiplication of a
    float32 array by a Python float); [rescale_wide] forms it in binary64
    and rounds the result. *)
Definition rescale_factor : spec_float := np.f64_div (np.f64_of_Z 1) (np.f64_of_Z 255).

Definition rescale (k : Z) : spec_float :=
  np.f32_mul (np.f32_of_Z k) (astype_float32 rescale_factor).

Definition rescale_wide (k : Z) : spec_float :=
  astype_float32 (np.f64_mul (np.f64_of_Z k) rescale_factor).

(** * Properties *)

(** ** Border interpolation stays inside the image *)

Lemma reflect_loop_range (fuel : nat) (delta p len : Z) :
  0 <= delta <= 1 -> 2 <= len -> ~ (0 <= p < len) ->
  (if p <? 0 then - p else p - len + 1) <= Z.of_nat fuel ->
  0 <= cv2.reflect_loop fuel delta p len < len.
Proof.
  revert p. induction fuel as [|fuel IH]; intros p Hd Hlen Hout Hfuel.
  - revert Hfuel. destruct (Z.ltb_spec p 0); lia.
  - cbn [cv2.reflect_loop].
    set (p' := if p <? 0 then - p - 1 + delta else len - 1 - (p - len) - delta).
    assert (Hp' : (p < 0 /\ p' = - p - 1 + delta) \/
                  (len <= p /\ p' = len - 1 - (p - len) - delta)).
    { subst p'. destruct (Z.ltb_spec p 0); lia. }
    clearbody p'.
    destruct ((0 <=? p') && (p' <? len))%bool eqn:Hin.
    + apply andb_true_iff in Hin as [H1 H2]. lia.
    + apply andb_false_iff in Hin.
      assert (Hout' : ~ (0 <= p' < len)) by (destruct Hin; lia).
      apply IH; try assumption.
      revert Hfuel.
      destruct (Z.ltb_spec p 0), (Z.ltb_spec p' 0); lia.
Qed.

Lemma borderInterpolate_range (p len : Z) (b : cv2.BorderTypes) :
  0 < len -> 0 <= cv2.borderInterpolate p len b < len.
Proof.
  intros Hlen. unfold cv2.borderInterpolate.
  destruct ((0 <=? p) && (p <? len))%bool eqn:Hin.
  - apply andb_true_iff in Hin as [H1 H2]. lia.
  - apply andb_false_iff in Hin.
    assert (Hout : ~ (0 <= p < len)) by (destruct Hin; lia).
    assert (Hfuel : (if p <? 0 then - p else p - len + 1) <= Z.of_nat (Z.to_nat (Z.abs p)))
      by (destruct (Z.ltb_spec p 0); lia).
    destruct b.
    + destruct (Z.ltb_spec p 0); lia.
    + destruct (Z.eqb_spec len 1); [lia|].
      apply reflect_loop_range; lia.
    + destruct (Z.eqb_spec len 1); [lia|].
      apply reflect_loop_range; lia.
Qed.

(** ** Filtering a uniform image *)

Lemma sumZ_scale (v : Z) (l : list Z) : sumZ ((fun w => w * v) <$> l) = sumZ l * v.
Proof. induction l as [|w l IH]; cbn; [reflexivity|]. unfold sumZ in IH. cbn in IH. lia. Qed.

Lemma imap_ignore {A B} (f : A -> B) (l : list A) :
  imap (fun _ x => f x) l = f <$> l.
Proof. exact (imap_const f l). Qed.

Lemma correlate_const (src : Z -> Z -> Z) (kernel : list (list Z)) (v y x : Z) :
  (forall yy xx, src yy xx = v) ->
  cv2.correlate src kernel y x = kernel_sum kernel * v.
Proof.
  intros Hsrc. unfold cv2.correlate, kernel_sum.
  rewrite (imap_ext _ (fun _ krow => sumZ krow * v)).
  - rewrite imap_ignore. clear.
    induction kernel as [|k ks IH]; cbn; [reflexivity|].
    unfold sumZ in *. cbn in *. lia.
  - intros i krow _. cbn.
    rewrite (imap_ext _ (fun _ w => w * v)).
    + rewrite imap_ignore. apply sumZ_scale.
    + intros j w _. cbn. now rewrite Hsrc.
Qed.

Lemma uniform_replicate (p : pixel Z) (img : image Z) :
  rectangular img -> uniform p img ->
  img = replicate (rows img) (replicate (cols img) p).
Proof.
  intros Hrect Huni. symmetry. apply replicate_as_Forall_2; [reflexivity|].
  unfold rectangular in Hrect. unfold uniform in Huni.
  rewrite Forall_forall in *. intros row Hrow.
  apply replicate_as_Forall_2; auto.
Qed.

Lemma at_replicate {A} (d p : A) (h w : nat) (y x : Z) :
  0 <= y < Z.of_nat h -> 0 <= x < Z.of_nat w ->
  cv2.at_ d (replicate h (replicate w p)) y x = p.
Proof.
  intros Hy Hx. unfold cv2.at_.
  rewrite (nth_lookup_Some _ _ _ (replicate w p)).
  - apply nth_lookup_Some. apply lookup_replicate_2. lia.
  - apply lookup_replicate_2. lia.
Qed.

Lemma saturate_cast_uchar_id (v : Z) : is_u8 v -> cv2.saturate_cast_uchar v = v.
Proof. unfold is_u8, cv2.saturate_cast_uchar. lia. Qed.

Lemma saturate_cast_uchar_u8 (v : Z) : is_u8 (cv2.saturate_cast_uchar v).
Proof. unfold is_u8, cv2.saturate_cast_uchar. lia. Qed.

Lemma Mat_empty_false {A} (m : list (list A)) :
  Mat_empty m = false <-> (0 < rows m)%nat /\ (0 < cols m)%nat.
Proof.
  unfold Mat_empty. rewrite orb_false_iff, !Nat.eqb_neq. lia.
Qed.

(** A uniform image filtered by any kernel is uniform again: each channel
    is scaled by the sum of the weights and saturated. *)
Lemma filter2D_uniform (img : image Z) (kernel : list (list Z)) (p : pixel Z) :
  Mat_empty img = false -> Mat_empty kernel = false ->
  rectangular img -> uniform p img ->
  cv2.filter2D img kernel =
    Some (replicate (rows img)
            (replicate (cols img)
               (pmap (fun v => cv2.saturate_cast_uchar (kernel_sum kernel * v)) p))).
Proof.
  intros Hne Hk Hrect Huni. unfold cv2.filter2D. rewrite Hne, Hk. cbn [orb].
  apply Mat_empty_false in Hne as [Hr Hc].
  f_equal.
  assert (Hread : forall c yy xx,
    chan c (cv2.at_ (0, 0, 0) img
              (cv2.borderInterpolate yy (Z.of_nat (rows img)) cv2.BORDER_REFLECT_101)
              (cv2.borderInterpolate xx (Z.of_nat (cols img)) cv2.BORDER_REFLECT_101))
    = chan c p).
  { intros c yy xx. rewrite (uniform_replicate p img Hrect Huni) at 1.
    rewrite at_replicate; [reflexivity| |];
      apply borderInterpolate_range; lia. }
  set (h := rows img) in *. set (w := cols img) in *.
  set (q := pmap (fun v => cv2.saturate_cast_uchar (kernel_sum kernel * v)) p).
  rewrite (const_fmap _ _ (replicate w q)).
  - rewrite length_seqZ. f_equal. lia.
  - intros i y _. rewrite (const_fmap _ _ q).
    + rewrite length_seqZ. f_equal. lia.
    + intros j x _. subst q. unfold pmap, mkpixel.
      now rewrite !(correlate_const _ _ _ _ _ (Hread _)).
Qed.

(** C1. Sharpening a uniform (flat-colour) 8-bit image returns the image
    unchanged: on constant input the 3x3 kernel (centre 5, four neighbours
    -1, corners 0) sums to 1 times the value, and an 8-bit value is not
    clipped. *)
Theorem sharpen_uniform_image (img : image Z) (p : pixel Z) :
  Mat_empty img = false -> rectangular img -> uniform p img -> u8_pixel p ->
  sharpen img = Some img.
Proof.
  intros Hne Hrect Huni Hp. unfold sharpen.
  rewrite (filter2D_uniform img _ p Hne) by (reflexivity || assumption).
  rewrite (uniform_replicate p img Hrect Huni) at 3.
  do 3 f_equal.
  destruct p as [[b g] r]. destruct Hp as (Hb & Hg & Hr). cbn in Hb, Hg, Hr.
  unfold pmap, mkpixel, kernel_sum. cbn.
  rewrite !Z.add_0_r.
  repeat match goal with
         | |- context [cv2.saturate_cast_uchar ?v] =>
             rewrite (saturate_cast_uchar_id v) by (unfold is_u8 in *; lia)
         end.
  f_equal; [f_equal|]; lia.
Qed.

Lemma sharpen_uniform_image_witness :
  sharpen [[(10, 20, 255); (10, 20, 255)]; [(10, 20, 255); (10, 20, 255)]]
  = Some [[(10, 20, 255); (10, 20, 255)]; [(10, 20, 255); (10, 20, 255)]].
Proof.
  apply (sharpen_uniform_image _ (10, 20, 255)).
  - reflexivity.
  - repeat constructor.
  - repeat constructor.
  - unfold u8_pixel, is_u8. cbn. lia.
Defined.

(** ** Adaptive thresholding *)

Lemma rows_fmap {A B} (f : list A -> list B) (m : list (list A)) :
  rows (f <$> m) = rows m.
Proof. unfold rows. apply length_fmap. Qed.

Lemma cols_fmap {A B} (f : A -> B) (m : list (list A)) :
  cols (fmap (M:=list) f <$> m) = cols m.
Proof. destruct m; cbn; [reflexivity|apply length_fmap]. Qed.

Lemma Mat_empty_fmap {A B} (f : A -> B) (m : list (list A)) :
  Mat_empty (fmap (M:=list) f <$> m) = Mat_empty m.
Proof. unfold Mat_empty. now rewrite rows_fmap, cols_fmap. Qed.

Lemma Mat_empty_imap {A B} (f : nat -> nat -> A -> B) (m : list (list A)) :
  Mat_empty (imap (fun y row => imap (f y) row) m) = Mat_empty m.
Proof.
  unfold Mat_empty, rows. rewrite length_imap. f_equal.
  destruct m; cbn; [reflexivity|]. now rewrite length_imap.
Qed.

Section AdaptiveThresholdProperties.

Variable local_mean : cv2.AdaptiveThresholdTypes -> plane -> Z -> plane.

(** The closed form of [adaptive_threshold]: pixel by pixel, 255 on the
    three channels where the intensity exceeds the local mean minus 2, and
    0 elsewhere. *)
Lemma adaptive_threshold_closed_form (img : image Z) :
  Mat_empty img = false ->
  adaptive_threshold local_mean img =
    Some (imap (fun y row =>
            imap (fun x p =>
              cv2.GRAY2BGR
                (if cv2.at_ 0 (local_mean cv2.ADAPTIVE_THRESH_GAUSSIAN_C
                                 (fmap (M:=list) cv2.BGR2GRAY <$> img) 11)
                      (Z.of_nat y) (Z.of_nat x) - 2 <? cv2.BGR2GRAY p
                 then 255 else 0)) row)
          img).
Proof.
  intros Hne. unfold adaptive_threshold, cv2.cvtColor_BGR2GRAY.
  rewrite Hne. cbn [mbind option_bind].
  unfold cv2.adaptiveThreshold. cbn [negb andb Z.modulo Z.eqb Z.ltb].
  change (11 mod 2 =? 1) with true. change (1 <? 11) with true.
  change (255 <? 0) with false. cbn [negb andb mbind option_bind].
  unfold cv2.cvtColor_GRAY2BGR.
  rewrite Mat_empty_imap, Mat_empty_fmap, Hne.
  f_equal.
  rewrite fmap_imap, imap_fmap.
  apply imap_ext. intros y row _. cbn.
  rewrite fmap_imap, imap_fmap.
  apply imap_ext. intros x p _. cbn.
  f_equal. unfold cv2.threshold_tab.
  change (cv2.saturate_cast_uchar 255) with 255.
  set (m := cv2.at_ 0 _ _ _). set (g := cv2.BGR2GRAY p).
  clearbody m g. rewrite Z.gtb_ltb.
  repeat match goal with
         | |- context [?a <? ?b] => destruct (Z.ltb_spec a b)
         end; (reflexivity || lia).
Qed.

(** C2. On a (non-empty) 3-channel image the adaptive-threshold transform
    returns an image of the same shape in which every pixel is 0 or 255
    with its three channels identical; the value is decided from the
    grayscale intensity against the local mean over an 11 x 11
    neighbourhood, less the offset 2. *)
Theorem adaptive_threshold_binary_replicated (img : image Z) :
  Mat_empty img = false ->
  exists out,
    adaptive_threshold local_mean img = Some out /\
    shape out = shape img /\
    Forall (Forall binary_pixel) out /\
    forall y x p, pixel_at img y x = Some p ->
      pixel_at out y x =
        Some (cv2.GRAY2BGR
                (if cv2.at_ 0 (local_mean cv2.ADAPTIVE_THRESH_GAUSSIAN_C
                                 (fmap (M:=list) cv2.BGR2GRAY <$> img) 11)
                      (Z.of_nat y) (Z.of_nat x) - 2 <? cv2.BGR2GRAY p
                 then 255 else 0)).
Proof.
  intros Hne. eexists. split; [apply adaptive_threshold_closed_form, Hne|].
  split; [|split].
  - unfold shape. apply list_eq. intros y.
    rewrite !list_lookup_fmap, list_lookup_imap.
    destruct (img !! y); cbn; [|reflexivity]. now rewrite length_imap.
  - apply Forall_lookup. intros y row Hrow.
    apply list_lookup_imap_Some in Hrow as (row0 & _ & ->).
    apply Forall_lookup. intros x q Hq.
    apply list_lookup_imap_Some in Hq as (p & _ & ->).
    unfold binary_pixel, cv2.GRAY2BGR.
    match goal with |- context [if ?c then _ else _] => destruct c end; eauto.
  - intros y x p Hp. unfold pixel_at in *.
    rewrite list_lookup_imap.
    destruct (img !! y) as [row|]; cbn in *; [|discriminate].
    rewrite list_lookup_imap, Hp. reflexivity.
Qed.

End AdaptiveThresholdProperties.

Lemma adaptive_threshold_binary_replicated_witness :
  exists out,
    adaptive_threshold (fun _ src _ => src) [[(10, 20, 30); (200, 100, 50)]] = Some out /\
    shape out = [2%nat] /\
    Forall (Forall binary_pixel) out.
Proof.
  destruct (adaptive_threshold_binary_replicated (fun _ src _ => src)
              [[(10, 20, 30); (200, 100, 50)]] eq_refl)
    as (out & Hout & Hshape & Hbin & _).
  exists out. auto.
Defined.

(** ** Batches: shapes and value ranges *)

Lemma shape_img_map {A B} (f : A -> B) (img : image A) :
  shape (img_map f img) = shape img.
Proof.
  unfold shape, img_map. rewrite <- list_fmap_compose.
  apply list_fmap_ext. intros i row _. cbn. apply length_fmap.
Qed.

Lemma shape_rows_cols {A} (m : list (list A)) :
  rectangular m -> shape m = replicate (rows m) (cols m).
Proof.
  intros Hrect. unfold shape. rewrite (const_fmap _ _ (cols m)); [reflexivity|].
  intros i row Hrow. unfold rectangular in Hrect.
  rewrite Forall_lookup in Hrect. eauto.
Qed.

Lemma rectangular_of_shape {A B} (m : list (list A)) (m' : list (list B)) :
  shape m' = shape m -> rectangular m -> rectangular m'.
Proof.
  intros Hs Hrect. pose proof (shape_rows_cols m Hrect) as Hm.
  rewrite <- Hs in Hm. unfold shape in *.
  assert (Hc : cols m' = cols m).
  { destruct m', m; cbn in *; congruence. }
  unfold rectangular. rewrite Hc. apply Forall_lookup. intros i row Hrow.
  assert (Hl : (length <$> m') !! i = Some (length row))
    by now rewrite list_lookup_fmap, Hrow.
  rewrite Hm in Hl. apply lookup_replicate_1 in Hl. tauto.
Qed.

Lemma Mat_empty_of_shape {A B} (m : list (list A)) (m' : list (list B)) :
  shape m' = shape m -> Mat_empty m' = Mat_empty m.
Proof.
  unfold shape, Mat_empty, rows. intros Hs.
  assert (Hl : length m' = length m)
    by (rewrite <- (length_fmap length m'), Hs; apply length_fmap).
  rewrite Hl. f_equal. destruct m', m; cbn in *; congruence.
Qed.

Lemma astype_uint8_u8 (x : spec_float) : is_u8 (np.astype_uint8 x).
Proof.
  unfold is_u8, np.astype_uint8.
  pose proof (Z.mod_pos_bound (np.trunc x) 256). lia.
Qed.

Lemma u8_image_astype (img : image spec_float) (g : spec_float -> spec_float) :
  u8_image (img_map np.astype_uint8 (img_map g img)).
Proof.
  unfold u8_image, img_map.
  apply Forall_fmap, Forall_fmap, Forall_true. intros row. cbn.
  apply Forall_fmap, Forall_fmap, Forall_true. intros p. cbn.
  repeat split; apply astype_uint8_u8.
Qed.



Lemma shape_imap2 {A B} (f : nat -> nat -> A -> B) (m : list (list A)) :
  shape (imap (fun y row => imap (f y) row) m) = shape m.
Proof.
  unfold shape. apply list_eq. intros y.
  rewrite !list_lookup_fmap, list_lookup_imap.
  destruct (m !! y); cbn; [|reflexivity]. now rewrite length_imap.
Qed.

Lemma sharpen_shape_preserving : shape_preserving sharpen.
Proof.
  intros img Hne Hrect _. unfold sharpen, cv2.filter2D. rewrite Hne. cbn [orb Mat_empty].
  eexists. split; [reflexivity|]. split.
  - rewrite (shape_rows_cols img Hrect). unfold shape.
    rewrite <- list_fmap_compose.
    rewrite (const_fmap _ _ (cols img)).
    + rewrite length_seqZ. f_equal. unfold rows. lia.
    + intros i y _. cbn. rewrite length_fmap, length_seqZ. lia.
  - unfold u8_image. apply Forall_fmap, Forall_true. intros y. cbn.
    apply Forall_fmap, Forall_true. intros x. cbn.
    repeat split; apply saturate_cast_uchar_u8.
Qed.

Lemma adaptive_threshold_shape_preserving
    (local_mean : cv2.AdaptiveThresholdTypes -> plane -> Z -> plane) :
  shape_preserving (adaptive_threshold local_mean).
Proof.
  intros img Hne _ _. rewrite adaptive_threshold_closed_form by assumption.
  eexists. split; [reflexivity|]. split; [apply shape_imap2|].
  apply Forall_lookup. intros y row Hrow.
  apply list_lookup_imap_Some in Hrow as (row0 & _ & ->).
  apply Forall_lookup. intros x q Hq.
  apply list_lookup_imap_Some in Hq as (p & _ & ->).
  unfold cv2.GRAY2BGR, u8_pixel, is_u8.
  match goal with |- context [if ?c then _ else _] => destruct c end; cbn; lia.
Qed.


(** C10. The denormalise-renormalise round trip of [preprocess_batch] is
    not the identity on [0, 1]: with the identity as preprocessing
    function, the binary32 pixel value 0.5 (in [0, 1]) comes back as
    127 / 255.0, which differs from 0.5. *)
Theorem preprocess_batch_round_trip_lossy :
  exists x y : spec_float,
    valid_binary 24 128 x = true /\
    in_unit_interval (np.f64_of_f32 x) /\
    preprocess_batch [[[(x, x, x)]]] Some = Some [[[(y, y, y)]]] /\
    y = np.f64_div (np.f64_of_Z 127) (np.f64_of_Z 255) /\
    np.f64_eqb y (np.f64_of_f32 x) = false.
Proof.
  exists one_half. eexists.
  split; [reflexivity|]. split; [split; reflexivity|].
  split; [vm_compute; reflexivity|].
  split; vm_compute; reflexivity.
Qed.

(** ** Class count and the output layer *)

Lemma length_dirnames (es : list os.entry) :
  length (os.dirnames es) = length (filter (fun e => is_dir e = true) es).
Proof.
  unfold os.dirnames. induction es as [|[n|n sub] es IH]; cbn; [reflexivity| |].
  - rewrite decide_False by discriminate. exact IH.
  - rewrite decide_True by reflexivity. cbn. now rewrite IH.
Qed.

(** ** The summation of [np.mean] *)

(** The length of the array is enough fuel for its summation: more fuel
    gives the same sum. *)
Lemma pairwise_sum_fuel (fuel fuel' : nat) (a : list spec_float) :
  (length a <= fuel)%nat -> (length a <= fuel')%nat ->
  np.pairwise_sum fuel a = np.pairwise_sum fuel' a.
Proof.
  revert fuel' a. induction fuel as [|fuel IH]; intros fuel' a H1 H2.
  - destruct a; [|cbn in H1; lia]. now destruct fuel'.
  - destruct fuel' as [|fuel'].
    + destruct a; [reflexivity|cbn in H2; lia].
    + cbn [np.pairwise_sum]. destruct (length a <? 8)%nat; [reflexivity|].
      destruct (Nat.leb_spec (length a) 128); [reflexivity|].
      pose proof (Nat.div_mod_eq (length a) 2) as Hhalf.
      pose proof (Nat.mod_upper_bound (length a) 2 ltac:(lia)).
      pose proof (Nat.mod_upper_bound (length a / 2) 8 ltac:(lia)).
      f_equal; apply IH; rewrite ?length_take, ?length_drop; lia.
Qed.

(** ** The seeded split *)

(** The literal [0.2] is the binary64 value nearest to one fifth, and 0.2
    times 100 rounds to exactly 20. *)
Lemma test_size_literal_value :
  test_size_literal = np.f64_div (np.f64_of_Z 1) (np.f64_of_Z 5) /\
  np.f64_mul test_size_literal (np.f64_of_Z 100) = np.f64_of_Z 20.
Proof. split; vm_compute; reflexivity. Qed.

(** C5. With the seed 42 the split does not read the process-wide random
    generator and leaves it as it was: two runs over the same rows, from
    any two generator states, give the same partition. *)
Theorem train_test_split_seeded_deterministic {RandomState A B : Type}
    (seeded : Z -> RandomState)
    (permutation : RandomState -> nat -> list nat * RandomState)
    (X : list A) (y : list B) (global1 global2 : RandomState) :
  fst (sklearn.train_test_split seeded permutation X y test_size_literal (Some 42) global1)
  = fst (sklearn.train_test_split seeded permutation X y test_size_literal (Some 42) global2)
  /\ snd (sklearn.train_test_split seeded permutation X y test_size_literal (Some 42) global1)
     = global1.
Proof.
  unfold sklearn.train_test_split, sklearn.check_random_state.
  destruct (negb (length X =? length y)%nat); [split; reflexivity|].
  destruct (sklearn.validate_shuffle_split (length X) test_size_literal)
    as [[n_train n_test]|]; [|split; reflexivity].
  destruct (permutation (seeded 42) (length X)) as [perm rng'].
  split; reflexivity.
Qed.

(** Without a seed the partition does depend on the state of the
    process-wide generator. *)
Example train_test_split_unseeded_varies :
  let permutation := fun (g : bool) n => (if g then seq 0 n else rev (seq 0 n), negb g) in
  fst (sklearn.train_test_split (fun _ => true) permutation
         [10; 11; 12; 13; 14]%nat [0; 1; 0; 1; 0]%nat test_size_literal None true)
  <> fst (sklearn.train_test_split (fun _ => true) permutation
         [10; 11; 12; 13; 14]%nat [0; 1; 0; 1; 0]%nat test_size_literal None false).
Proof. vm_compute. discriminate. Qed.

(** ** Label encoding *)

Lemma unique_Permutation (values : list string) :
  sklearn.unique values ≡ₚ remove_dups values.
Proof. apply merge_sort_Permutation. Qed.

Lemma unique_NoDup (values : list string) : NoDup (sklearn.unique values).
Proof. rewrite unique_Permutation. apply NoDup_remove_dups. Qed.

Lemma elem_of_unique (values : list string) (v : string) :
  v ∈ sklearn.unique values <-> v ∈ values.
Proof. rewrite unique_Permutation. apply elem_of_remove_dups. Qed.

Lemma index_of_Some (uniques : list string) (v : string) (i : nat) :
  sklearn.index_of uniques v = Some i -> uniques !! i = Some v.
Proof.
  unfold sklearn.index_of. intros H.
  apply fmap_Some in H as ([j u] & Hfind & ->).
  apply list_find_Some in Hfind as (Hl & -> & _). exact Hl.
Qed.

Lemma index_of_elem (uniques : list string) (v : string) :
  v ∈ uniques -> exists i, sklearn.index_of uniques v = Some i.
Proof.
  intros Hv. unfold sklearn.index_of.
  destruct (list_find_elem_of (fun u => u = v) uniques v Hv eq_refl) as [[i u] ->].
  now exists i.
Qed.

(** Encoding succeeds on the column it was fitted on; the codes are the
    positions of the labels among the sorted distinct labels, and together
    they are exactly the numbers below the number of distinct labels. *)
Lemma fit_transform_codes (y : list string) :
  exists codes,
    sklearn.fit_transform y = Some (sklearn.unique y, codes) /\
    length codes = length y /\
    Forall2 (fun v c => sklearn.unique y !! c = Some v) y codes /\
    forall c, c ∈ codes <-> (c < length (remove_dups y))%nat.
Proof.
  unfold sklearn.fit_transform.
  destruct (mapM_is_Some_2 (sklearn.index_of (sklearn.unique y)) y) as [codes Hcodes].
  { apply Forall_forall. intros v Hv. cbn.
    destruct (index_of_elem (sklearn.unique y) v) as [i ->]; [|eauto].
    now apply elem_of_unique. }
  exists codes. rewrite Hcodes. cbn. split; [reflexivity|].
  pose proof (length_mapM _ _ _ Hcodes) as Hlen.
  apply mapM_Some_1 in Hcodes.
  assert (Hpos : Forall2 (fun v c => sklearn.unique y !! c = Some v) y codes).
  { eapply Forall2_impl; [exact Hcodes|]. intros v c. apply index_of_Some. }
  split; [now symmetry|]. split; [exact Hpos|].
  rewrite <- (Permutation_length (unique_Permutation y)).
  intros c. split.
  - intros Hc. apply list_elem_of_lookup_1 in Hc as [i Hi].
    destruct (Forall2_lookup_r _ _ _ _ _ Hpos Hi) as (v & _ & Hv).
    now apply lookup_lt_Some in Hv.
  - intros Hc. apply lookup_lt_is_Some_2 in Hc as [v Hv].
    assert (Hin : v ∈ y) by (apply elem_of_unique; eapply list_elem_of_lookup_2; eauto).
    apply list_elem_of_lookup_1 in Hin as [i Hi].
    destruct (Forall2_lookup_l _ _ _ _ _ Hpos Hi) as (c' & Hc' & Hv').
    assert (c' = c) by (eapply NoDup_lookup; eauto using unique_NoDup).
    subst c'. eapply list_elem_of_lookup_2; eauto.
Qed.

(** ** Sizes of the two parts *)

Lemma safe_indexing_in_range {A} (a : list A) (indices : list nat) :
  Forall (fun i => (i < length a)%nat) indices ->
  exists out, sklearn.safe_indexing a indices = Some out /\
              length out = length indices.
Proof.
  intros Hidx. unfold sklearn.safe_indexing.
  destruct (mapM_is_Some_2 (fun i => a !! i) indices) as [out Hout].
  { eapply Forall_impl; [exact Hidx|]. intros i Hi. cbn.
    now apply lookup_lt_is_Some_2. }
  exists out. split; [exact Hout|].
  symmetry. eapply length_mapM, Hout.
Qed.

Section SplitProperties.

Context {RandomState : Type}.
Variable seeded : Z -> RandomState.
Variable permutation : RandomState -> nat -> list nat * RandomState.

(** [rng.permutation(n)] returns the numbers below [n] in some order. *)
Hypothesis permutation_range :
  forall rng n, fst (permutation rng n) ≡ₚ seq 0 n.

Lemma train_test_split_sizes {A B} (X : list A) (y : list B)
    (test_size : spec_float) (random_state : option Z) (global : RandomState)
    (n_train n_test : nat) :
  length X = length y ->
  sklearn.validate_shuffle_split (length X) test_size = Some (n_train, n_test) ->
  (n_train + n_test <= length X)%nat ->
  exists X_train X_test y_train y_test,
    fst (sklearn.train_test_split seeded permutation X y test_size random_state global)
      = Some (X_train, X_test, y_train, y_test) /\
    length X_train = n_train /\ length X_test = n_test /\
    length y_train = n_train /\ length y_test = n_test.
Proof.
  intros Hlen Hval Hsum. unfold sklearn.train_test_split.
  rewrite Hval. rewrite (proj2 (Nat.eqb_eq _ _) Hlen). cbn [negb].
  pose proof (permutation_range (sklearn.check_random_state seeded random_state global)
                (length X)) as Hperm.
  destruct (permutation _ (length X)) as [perm rng']. cbn [fst] in *.
  assert (Hrange : Forall (fun i => (i < length X)%nat) perm).
  { apply Forall_forall. intros i Hi. rewrite Hperm in Hi.
    apply elem_of_seq in Hi. lia. }
  assert (Hplen : length perm = length X)
    by (rewrite (Permutation_length Hperm); apply length_seq).
  assert (Htest : Forall (fun i => (i < length X)%nat) (take n_test perm))
    by (eapply Forall_take; eauto).
  assert (Htrain : Forall (fun i => (i < length X)%nat) (take n_train (drop n_test perm)))
    by (eapply Forall_take, Forall_drop; eauto).
  destruct (safe_indexing_in_range X _ Htrain) as (X_train & -> & HXtr).
  destruct (safe_indexing_in_range X _ Htest) as (X_test & -> & HXte).
  rewrite Hlen in Htrain, Htest.
  destruct (safe_indexing_in_range y _ Htrain) as (y_train & -> & Hytr).
  destruct (safe_indexing_in_range y _ Htest) as (y_test & -> & Hyte).
  exists X_train, X_test, y_train, y_test. cbn.
  rewrite length_take, length_drop in HXtr, Hytr.
  rewrite length_take in HXte, Hyte.
  repeat split; lia.
Qed.

(** C8. On a table of 100 rows whose Category column holds exactly 3
    distinct strings, the encoded column takes exactly the values 0, 1
    and 2, and the split with test fraction 0.2 gives 80 training rows and
    20 test rows. *)
Theorem tabular_scenario_100_rows_3_classes {F : Type}
    (data : list (F * string)) (global : RandomState) :
  length data = 100%nat ->
  length (remove_dups (snd <$> data)) = 3%nat ->
  exists Category X_train X_test y_train y_test,
    fst (encode_and_split seeded permutation data global)
      = Some (Category, (X_train, X_test, y_train, y_test)) /\
    length Category = 100%nat /\
    (list_to_set Category : gset nat) = {[0%nat; 1%nat; 2%nat]} /\
    length X_train = 80%nat /\ length X_test = 20%nat /\
    length y_train = 80%nat /\ length y_test = 20%nat.
Proof.
  intros Hrows Hdistinct. unfold encode_and_split.
  destruct (fit_transform_codes (snd <$> data)) as (codes & -> & Hlen & _ & Hcodes).
  rewrite length_fmap, Hrows in Hlen. rewrite Hdistinct in Hcodes.
  destruct (train_test_split_sizes (fst <$> data) codes test_size_literal
              (Some 42) global 80 20) as (Xtr & Xte & ytr & yte & Hsplit & Hsizes).
  { rewrite length_fmap. congruence. }
  { rewrite length_fmap, Hrows. vm_compute. reflexivity. }
  { rewrite length_fmap, Hrows. lia. }
  destruct (sklearn.train_test_split _ _ _ _ _ _ _) as [parts global'].
  cbn [fst] in Hsplit. subst parts. cbn.
  exists codes, Xtr, Xte, ytr, yte.
  split; [reflexivity|]. split; [exact Hlen|]. split; [|exact Hsizes].
  apply set_eq. intros c. rewrite elem_of_list_to_set, Hcodes.
  rewrite !elem_of_union, !elem_of_singleton. lia.
Qed.

End SplitProperties.

Lemma tabular_scenario_100_rows_3_classes_witness :
  exists Category X_train X_test y_train y_test,
    fst (encode_and_split (fun _ => tt) toy_permutation toy_table tt)
      = Some (Category, (X_train, X_test, y_train, y_test)) /\
    length Category = 100%nat /\
    (list_to_set Category : gset nat) = {[0%nat; 1%nat; 2%nat]} /\
    length X_train = 80%nat /\ length X_test = 20%nat /\
    length y_train = 80%nat /\ length y_test = 20%nat.
Proof.
  apply (tabular_scenario_100_rows_3_classes (fun _ => tt) toy_permutation).
  - intros rng n. apply reverse_Permutation.
  - vm_compute. reflexivity.
  - vm_compute. reflexivity.
Defined.

(** ** The training loops *)

Lemma preprocess_batch_is_Some (preprocess_func : image Z -> option (image Z))
    (batch_x : list (image spec_float)) :
  shape_preserving preprocess_func ->
  Forall (fun img => Mat_empty img = false /\ rectangular img) batch_x ->
  is_Some (preprocess_batch batch_x preprocess_func).
Proof.
  intros Hf Hbatch. unfold preprocess_batch.
  match goal with |- context [mapM ?f _] => set (prep := f) end.
  destruct (mapM_is_Some_2 prep batch_x) as [mid Hmid].
  - eapply Forall_impl; [exact Hbatch|]. intros img [Hne Hrect]. subst prep. cbn.
    set (u := img_map np.astype_uint8 _).
    assert (Hs : shape u = shape img) by (subst u; now rewrite !shape_img_map).
    destruct (Hf u) as (o & -> & _); [| | |eauto].
    + now rewrite (Mat_empty_of_shape _ _ Hs).
    + now apply (rectangular_of_shape _ _ Hs).
    + apply u8_image_astype.
  - rewrite Hmid. cbn. eauto.
Qed.

Section TrainingProperties.

Context {Model Gen World Labels : Type}.

Variable local_mean : cv2.AdaptiveThresholdTypes -> plane -> Z -> plane.
Variable flow_from_directory : string -> subset -> bool -> World -> Gen * World.
Variable samples : Gen -> nat.
Variable next_batch :
  Gen -> World -> (list (image spec_float) * Labels) * Gen * World.
Variable new_model : keras.Sequential -> World -> Model * World.
Variable train_on_batch :
  Model -> list (image spec_float) -> Labels -> World ->
  (spec_float * spec_float) * Model * World.
Variable test_on_batch :
  Model -> list (image spec_float) -> Labels -> World ->
  (spec_float * spec_float) * Model * World.

Local Abbreviation state := (@state Model Gen World).
Local Abbreviation prog := (@prog Model Gen World).

(** *** Running statements *)

Lemma runs_ret {A} (a : A) (s : state) (Q : A -> state -> Prop) :
  Q a s -> runs (mret a) s Q.
Proof. intros HQ. exists a, s. split; [reflexivity|exact HQ]. Qed.

Lemma runs_bind {A B} (m : prog A) (f : A -> prog B) (s : state)
    (Q : B -> state -> Prop) :
  runs m s (fun a s' => runs (f a) s' Q) -> runs (m ≫= f) s Q.
Proof.
  intros (a & s' & Hm & b & s'' & Hf & HQ). exists b, s''.
  split; [|exact HQ]. unfold mbind, prog_bind. now rewrite Hm.
Qed.

Lemma runs_mono {A} (m : prog A) (s : state) (Q Q' : A -> state -> Prop) :
  runs m s Q -> (forall a s', Q a s' -> Q' a s') -> runs m s Q'.
Proof. intros (a & s' & Hm & HQ) Himp. exists a, s'. auto. Qed.

Lemma runs_lift {A} (o : option A) (s : state) (Q : A -> state -> Prop) :
  is_Some o -> (forall a, o = Some a -> Q a s) -> runs (lift o) s Q.
Proof. intros [a ->] HQ. exists a, s. split; [reflexivity|auto]. Qed.

Lemma runs_for_each {A S} (body : A -> S -> prog S)
    (I : list A -> S -> state -> Prop) (l : list A) (acc : S) (s : state) :
  I l acc s ->
  (forall x l' acc s, I (x :: l') acc s -> runs (body x acc) s (I l')) ->
  runs (for_each body l acc) s (I []).
Proof.
  intros HI Hbody. revert acc s HI.
  induction l as [|x l IH]; intros acc s HI; cbn [for_each].
  - now apply runs_ret.
  - apply runs_bind. eapply runs_mono; [apply Hbody, HI|].
    intros acc' s' HI'. now apply IH.
Qed.

(** *** Frames *)

Ltac list_incl :=
  let x := fresh "x" in
  intros x; rewrite ?elem_of_cons, ?elem_of_nil; tauto.

Lemma same_kind_refl (o : @object Model Gen) : same_kind o o.
Proof. now destruct o. Qed.

Lemma same_kind_trans (o1 o2 o3 : @object Model Gen) :
  same_kind o1 o2 -> same_kind o2 o3 -> same_kind o1 o3.
Proof. destruct o1, o2, o3; cbn; tauto. Qed.

Lemma evolves_refl (W : list nat) (s : state) : evolves W s s.
Proof.
  split; [reflexivity|]. intros l o Hl. exists o.
  auto using same_kind_refl.
Qed.

Lemma evolves_trans (W : list nat) (s1 s2 s3 : state) :
  evolves W s1 s2 -> evolves W s2 s3 -> evolves W s1 s3.
Proof.
  intros [Hl12 H12] [Hl23 H23]. split; [congruence|].
  intros l o1 Ho1.
  destruct (H12 l o1 Ho1) as (o2 & Ho2 & Hk12 & Hf12).
  destruct (H23 l o2 Ho2) as (o3 & Ho3 & Hk23 & Hf23).
  exists o3. split; [exact Ho3|]. split; [eauto using same_kind_trans|].
  intros Hl. rewrite Hf23, Hf12; auto.
Qed.

Lemma evolves_weaken (W W' : list nat) (s s' : state) :
  W ⊆ W' -> evolves W s s' -> evolves W' s s'.
Proof.
  intros Hsub [Hlen H]. split; [exact Hlen|].
  intros l o Ho. destruct (H l o Ho) as (o' & Ho' & Hk & Hf).
  exists o'. repeat split; auto.
Qed.

Lemma evolves_store (l : nat) (o o' : @object Model Gen) (s : state) (w : World) :
  heap s !! l = Some o -> same_kind o o' ->
  evolves [l] s {| heap := <[l := o']> (heap s); world := w |}.
Proof.
  intros Ho Hk. split; cbn; [apply length_insert|].
  intros l' o1 Ho1. destruct (decide (l = l')) as [<-|Hne].
  - exists o'. rewrite list_lookup_insert_eq by (eapply lookup_lt_Some; eauto).
    split; [reflexivity|]. split; [congruence|].
    intros Hnot. exfalso. apply Hnot. now left.
  - exists o1. rewrite list_lookup_insert_ne by assumption.
    auto using same_kind_refl.
Qed.

Lemma evolves_is_gen (W : list nat) (s s' : state) (l : nat) :
  evolves W s s' -> is_gen s l -> is_gen s' l.
Proof.
  intros [_ H] [g Hg]. destruct (H l _ Hg) as ([| |g'] & Ho' & Hk & _);
    try contradiction. now exists g'.
Qed.

Lemma evolves_is_model (W : list nat) (s s' : state) (l : nat) :
  evolves W s s' -> is_model s l -> is_model s' l.
Proof.
  intros [_ H] [m Hm]. destruct (H l _ Hm) as ([|m'|] & Ho' & Hk & _);
    try contradiction. now exists m'.
Qed.

Lemma evolves_frame (W : list nat) (s s' : state) (l : nat) :
  evolves W s s' -> l ∉ W -> heap s' !! l = heap s !! l.
Proof.
  intros [Hlen H] Hl. destruct (heap s !! l) as [o|] eqn:Ho.
  - destruct (H l o Ho) as (o' & Ho' & _ & Hf). rewrite Ho'. f_equal. auto.
  - apply lookup_ge_None in Ho. apply lookup_ge_None. lia.
Qed.

(** *** The statements of the loop body *)

(** The directory iterators yield arrays with at least one pixel. *)
Hypothesis next_batch_images :
  forall g w, batch_images_ok (fst (fst (fst (next_batch g w)))).

Lemma list_append_runs (l : nat) (v : spec_float) (xs : list spec_float) (s : state) :
  heap s !! l = Some (PyList xs) ->
  runs (list_append l v) s (fun _ s' =>
    evolves [l] s s' /\ heap s' !! l = Some (PyList (xs ++ [v]))).
Proof.
  intros Hl. unfold list_append, runs, mbind, prog_bind, load, store.
  rewrite Hl. cbn.
  rewrite decide_True by (eapply lookup_lt_Some; eauto).
  eexists _, _. split; [reflexivity|]. split.
  - eapply evolves_store; [exact Hl|exact I].
  - cbn. apply list_lookup_insert_eq. eapply lookup_lt_Some; eauto.
Qed.

Lemma next_runs (gen : nat) (s : state) :
  is_gen s gen ->
  runs (next next_batch gen) s (fun b s' =>
    evolves [gen] s s' /\ batch_images_ok (fst b)).
Proof.
  intros [g Hg]. unfold next, runs, mbind, prog_bind, load, store, with_world, mret, prog_ret.
  rewrite Hg. pose proof (next_batch_images g (world s)) as Hok.
  destruct (next_batch g (world s)) as [[b g'] w']. cbn in *.
  rewrite decide_True by (eapply lookup_lt_Some; eauto).
  eexists _, _. split; [reflexivity|]. split; [|exact Hok].
  eapply evolves_store; [exact Hg|exact I].
Qed.

Lemma call_on_batch_runs
    (f : Model -> list (image spec_float) -> Labels -> World ->
         (spec_float * spec_float) * Model * World)
    (model : nat) (batch_x : list (image spec_float)) (batch_y : Labels) (s : state) :
  is_model s model ->
  runs (call_on_batch f model batch_x batch_y) s (fun _ s' => evolves [model] s s').
Proof.
  intros [m Hm]. unfold call_on_batch, runs, mbind, prog_bind, load, store, with_world, mret, prog_ret.
  rewrite Hm.
  destruct (f m batch_x batch_y (world s)) as [[la m'] w']. cbn in *.
  rewrite decide_True by (eapply lookup_lt_Some; eauto).
  eexists _, _. split; [reflexivity|].
  eapply evolves_store; [exact Hm|exact I].
Qed.

Ltac run_step Hf :=
  let s1 := fresh "s" in
  let Hev := fresh "Hev" in
  let Hok := fresh "Hok" in
  let bx := fresh "batch_x" in
  let by_ := fresh "batch_y" in
  apply runs_bind;
  eapply runs_mono; [apply next_runs; eapply evolves_is_gen; eauto|];
  intros [bx by_] s1 [Hev Hok]; cbn [fst] in Hok;
  apply runs_bind;
  apply runs_lift; [now apply preprocess_batch_is_Some|];
  intros ? _;
  apply runs_bind;
  eapply runs_mono;
    [apply call_on_batch_runs;
     eapply evolves_is_model; [exact Hev|]; eapply evolves_is_model; eauto|].

(** The training steps of an epoch: [n] batches, one loss and one accuracy
    collected per batch; only the generator and the model change. *)
Lemma train_steps_runs (gen model : nat)
    (preprocess_func : image Z -> option (image Z)) (n : nat) (s : state) :
  shape_preserving preprocess_func -> is_gen s gen -> is_model s model ->
  runs (for_range n (fun step '(epoch_train_loss, epoch_train_acc) =>
          '(batch_x, batch_y) ← next next_batch gen;
          batch_x ← lift (preprocess_batch batch_x preprocess_func);
          '(loss, acc) ← call_on_batch train_on_batch model batch_x batch_y;
          mret (epoch_train_loss ++ [loss], epoch_train_acc ++ [acc]))
        ([], [])) s
       (fun acc s' => evolves [gen; model] s s' /\
                      length (fst acc) = n /\ length (snd acc) = n).
Proof.
  intros Hf Hgen Hmodel. unfold for_range.
  eapply runs_mono.
  - apply (runs_for_each _ (fun rem acc s' =>
      evolves [gen; model] s s' /\
      (length (fst acc) + length rem = n)%nat /\
      (length (snd acc) + length rem = n)%nat)).
    + split; [apply evolves_refl|]. cbn. rewrite length_seq. lia.
    + intros step rem [etl eta] s0 (Hev0 & H1 & H2). cbn [fst snd] in *.
      run_step Hf.
      intros [loss acc] s2 Hev2. apply runs_ret. cbn [fst snd length] in *.
      split; [|rewrite !length_app; cbn; lia].
      apply (evolves_trans _ s s0); [exact Hev0|].
      apply (evolves_trans _ s0 s1).
      * eapply evolves_weaken; [|eassumption]. list_incl.
      * eapply evolves_weaken; [|eassumption]. list_incl.
  - intros [a b] s' (Hev & H1 & H2). cbn in *. split; [exact Hev|split; lia].
Qed.

(** The validation steps of an epoch. *)
Lemma test_steps_runs (gen model : nat)
    (preprocess_func : image Z -> option (image Z)) (n : nat) (s : state) :
  shape_preserving preprocess_func -> is_gen s gen -> is_model s model ->
  runs (for_range n (fun step '(val_acc, val_loss) =>
          '(batch_x, batch_y) ← next next_batch gen;
          batch_x ← lift (preprocess_batch batch_x preprocess_func);
          '(loss, acc) ← call_on_batch test_on_batch model batch_x batch_y;
          mret (val_acc ++ [acc], val_loss ++ [loss]))
        ([], [])) s
       (fun acc s' => evolves [gen; model] s s' /\
                      length (fst acc) = n /\ length (snd acc) = n).
Proof.
  intros Hf Hgen Hmodel. unfold for_range.
  eapply runs_mono.
  - apply (runs_for_each _ (fun rem acc s' =>
      evolves [gen; model] s s' /\
      (length (fst acc) + length rem = n)%nat /\
      (length (snd acc) + length rem = n)%nat)).
    + split; [apply evolves_refl|]. cbn. rewrite length_seq. lia.
    + intros step rem [va vl] s0 (Hev0 & H1 & H2). cbn [fst snd] in *.
      run_step Hf.
      intros [loss acc] s2 Hev2. apply runs_ret. cbn [fst snd length] in *.
      split; [|rewrite !length_app; cbn; lia].
      apply (evolves_trans _ s s0); [exact Hev0|].
      apply (evolves_trans _ s0 s1).
      * eapply evolves_weaken; [|eassumption]. list_incl.
      * eapply evolves_weaken; [|eassumption]. list_incl.
  - intros [a b] s' (Hev & H1 & H2). cbn in *. split; [exact Hev|split; lia].
Qed.

Ltac nodup_ineqs H :=
  repeat (let Hn := fresh "Hn" in apply NoDup_cons in H as [Hn H];
          rewrite ?not_elem_of_cons in Hn);
  destruct_and?.

Ltac notin :=
  rewrite ?not_elem_of_cons;
  repeat split; solve [apply not_elem_of_nil | congruence].

Ltac frame :=
  repeat match goal with
         | Hev : evolves ?W ?s ?s' |- heap ?s' !! ?l = _ =>
             rewrite (evolves_frame W s s' l Hev) by notin
         end;
  try eassumption.

(** One epoch: it runs to its end, changes only the seven objects it is
    given, and appends exactly one value to each of the four history
    lists; with no validation step the two validation values are the mean
    of an empty list, NaN. *)
Lemma training_epoch_runs (gen_train gen_test model : nat)
    (train_loss_list val_loss_list train_acc_list val_acc_list : nat)
    (preprocess_func : image Z -> option (image Z))
    (steps_train steps_test : nat) (s : state)
    (xtl xvl xta xva : list spec_float) :
  shape_preserving preprocess_func ->
  NoDup [gen_train; gen_test; model;
         train_loss_list; val_loss_list; train_acc_list; val_acc_list] ->
  is_gen s gen_train -> is_gen s gen_test -> is_model s model ->
  heap s !! train_loss_list = Some (PyList xtl) ->
  heap s !! val_loss_list = Some (PyList xvl) ->
  heap s !! train_acc_list = Some (PyList xta) ->
  heap s !! val_acc_list = Some (PyList xva) ->
  runs (training_epoch next_batch train_on_batch test_on_batch
          gen_train gen_test model
          train_loss_list val_loss_list train_acc_list val_acc_list
          preprocess_func steps_train steps_test) s
    (fun _ s' =>
       evolves [gen_train; gen_test; model;
                train_loss_list; val_loss_list; train_acc_list; val_acc_list] s s' /\
       exists a b c d,
         heap s' !! train_loss_list = Some (PyList (xtl ++ [a])) /\
         heap s' !! val_loss_list = Some (PyList (xvl ++ [c])) /\
         heap s' !! train_acc_list = Some (PyList (xta ++ [b])) /\
         heap s' !! val_acc_list = Some (PyList (xva ++ [d])) /\
         (steps_test = 0%nat -> c = S754_nan /\ d = S754_nan)).
Proof.
  intros Hf Hnd Hgt Hge Hm Htl Hvl Hta Hva. nodup_ineqs Hnd.
  unfold training_epoch.
  apply runs_bind. eapply runs_mono; [apply train_steps_runs; eauto|].
  intros [epoch_train_loss epoch_train_acc] s1 (Hev1 & _ & _).
  apply runs_bind. eapply runs_mono; [apply (list_append_runs _ _ xtl); frame|].
  intros _ s2 [Hev2 Htl2].
  apply runs_bind. eapply runs_mono; [apply (list_append_runs _ _ xta); frame|].
  intros _ s3 [Hev3 Hta3].
  apply runs_bind. eapply runs_mono.
  { apply test_steps_runs; [exact Hf| |].
    - do 3 (eapply evolves_is_gen; [eassumption|]). exact Hge.
    - do 3 (eapply evolves_is_model; [eassumption|]). exact Hm. }
  intros [val_acc val_loss] s4 (Hev4 & Hlen_acc & Hlen_loss). cbn [fst snd] in *.
  apply runs_bind. eapply runs_mono; [apply (list_append_runs _ _ xvl); frame|].
  intros _ s5 [Hev5 Hvl5].
  eapply runs_mono; [apply (list_append_runs _ _ xva); frame|].
  intros _ s6 [Hev6 Hva6].
  split.
  - apply (evolves_trans _ s s1); [eapply evolves_weaken; [|eassumption]; list_incl|].
    apply (evolves_trans _ s1 s2); [eapply evolves_weaken; [|eassumption]; list_incl|].
    apply (evolves_trans _ s2 s3); [eapply evolves_weaken; [|eassumption]; list_incl|].
    apply (evolves_trans _ s3 s4); [eapply evolves_weaken; [|eassumption]; list_incl|].
    apply (evolves_trans _ s4 s5); [eapply evolves_weaken; [|eassumption]; list_incl|].
    eapply evolves_weaken; [|eassumption]. list_incl.
  - exists (np.mean epoch_train_loss), (np.mean epoch_train_acc),
           (np.mean val_loss), (np.mean val_acc).
    split; [frame|]. split; [frame|]. split; [frame|]. split; [frame|].
    intros ->. apply nil_length_inv in Hlen_acc, Hlen_loss. subst.
    split; reflexivity.
Qed.

(** A whole loop: it runs to its end, changes only its seven objects, and
    leaves each history list longer by exactly one entry per epoch. *)
Lemma training_loop_runs (gen_train gen_test model : nat)
    (train_loss_list val_loss_list train_acc_list val_acc_list : nat)
    (preprocess_func : image Z -> option (image Z))
    (steps_train steps_test epochs : nat) (s : state)
    (xtl xvl xta xva : list spec_float) :
  shape_preserving preprocess_func ->
  NoDup [gen_train; gen_test; model;
         train_loss_list; val_loss_list; train_acc_list; val_acc_list] ->
  is_gen s gen_train -> is_gen s gen_test -> is_model s model ->
  heap s !! train_loss_list = Some (PyList xtl) ->
  heap s !! val_loss_list = Some (PyList xvl) ->
  heap s !! train_acc_list = Some (PyList xta) ->
  heap s !! val_acc_list = Some (PyList xva) ->
  runs (training_loop next_batch train_on_batch test_on_batch
          gen_train gen_test model
          train_loss_list val_loss_list train_acc_list val_acc_list
          preprocess_func steps_train steps_test epochs) s
    (fun _ s' =>
       evolves [gen_train; gen_test; model;
                train_loss_list; val_loss_list; train_acc_list; val_acc_list] s s' /\
       exists ltl lvl lta lva,
         length ltl = epochs /\ length lvl = epochs /\
         length lta = epochs /\ length lva = epochs /\
         heap s' !! train_loss_list = Some (PyList (xtl ++ ltl)) /\
         heap s' !! val_loss_list = Some (PyList (xvl ++ lvl)) /\
         heap s' !! train_acc_list = Some (PyList (xta ++ lta)) /\
         heap s' !! val_acc_list = Some (PyList (xva ++ lva)) /\
         (steps_test = 0%nat ->
          lvl = replicate epochs S754_nan /\ lva = replicate epochs S754_nan)).
Proof.
  intros Hf Hnd Hgt Hge Hm Htl Hvl Hta Hva.
  unfold training_loop, for_range.
  set (W := [gen_train; gen_test; model;
             train_loss_list; val_loss_list; train_acc_list; val_acc_list]).
  eapply runs_mono.
  - apply (runs_for_each _ (fun rem (_ : unit) s' =>
      evolves W s s' /\
      exists ltl lvl lta lva,
        (length ltl + length rem = epochs)%nat /\
        (length lvl + length rem = epochs)%nat /\
        (length lta + length rem = epochs)%nat /\
        (length lva + length rem = epochs)%nat /\
        heap s' !! train_loss_list = Some (PyList (xtl ++ ltl)) /\
        heap s' !! val_loss_list = Some (PyList (xvl ++ lvl)) /\
        heap s' !! train_acc_list = Some (PyList (xta ++ lta)) /\
        heap s' !! val_acc_list = Some (PyList (xva ++ lva)) /\
        (steps_test = 0%nat ->
         lvl = replicate (length lvl) S754_nan /\
         lva = replicate (length lva) S754_nan))).
    + split; [apply evolves_refl|]. exists [], [], [], [].
      rewrite !app_nil_r, length_seq. cbn. auto 10.
    + intros epoch rem [] s0 (Hev0 & ltl & lvl & lta & lva & H).
      destruct H as (L1 & L2 & L3 & L4 & Etl & Evl & Eta & Eva & Hnan).
      cbn [length] in *.
      eapply runs_mono.
      * apply (training_epoch_runs _ _ _ _ _ _ _ _ _ _ s0
                 (xtl ++ ltl) (xvl ++ lvl) (xta ++ lta) (xva ++ lva));
          eauto using evolves_is_gen, evolves_is_model.
      * intros [] s1 (Hev1 & a & b & c & d & Etl1 & Evl1 & Eta1 & Eva1 & Hnan1).
        split; [eapply evolves_trans; eassumption|].
        exists (ltl ++ [a]), (lvl ++ [c]), (lta ++ [b]), (lva ++ [d]).
        rewrite !length_app, !app_assoc. cbn [length].
        repeat (split; [first [lia | assumption]|]).
        intros Hz. destruct (Hnan Hz) as [Hlvl Hlva].
        destruct (Hnan1 Hz) as [-> ->].
        rewrite !Nat.add_1_r, !replicate_S_end. now rewrite <- Hlvl, <- Hlva.
  - intros [] s' (Hev & ltl & lvl & lta & lva & H).
    destruct H as (L1 & L2 & L3 & L4 & Etl & Evl & Eta & Eva & Hnan).
    cbn [length] in *. rewrite Nat.add_0_r in L1, L2, L3, L4.
    split; [exact Hev|]. exists ltl, lvl, lta, lva.
    repeat (split; [assumption|]).
    intros Hz. destruct (Hnan Hz) as [Hlvl Hlva]. rewrite L2 in Hlvl. rewrite L4 in Hlva.
    auto.
Qed.

(** *** The statements before the loops *)

Lemma setup_runs (fs : os.entry) (w : World) (n : nat) :
  num_classes fs = Some n ->
  exists g1 g2 g3 g4 m1 m2 w1 w3 w',
    g2 = fst (flow_from_directory DATASET_DIR validation false w1) /\
    g4 = fst (flow_from_directory DATASET_DIR validation false w3) /\
    setup flow_from_directory samples new_model fs (initial w) =
      Some ({| train_gen_bin := 0; test_gen_bin := 1;
               train_gen_sharp := 2; test_gen_sharp := 3;
               steps_train_bin := samples g1 / BATCH_SIZE;
               steps_test_bin := samples g2 / BATCH_SIZE;
               steps_train_sharp := samples g3 / BATCH_SIZE;
               steps_test_sharp := samples g4 / BATCH_SIZE;
               model_bin := 4; model_sharp := 5;
               train_loss_bin := 6; val_loss_bin := 7;
               train_acc_bin := 8; val_acc_bin := 9;
               train_loss_sharp := 10; val_loss_sharp := 11;
               train_acc_sharp := 12; val_acc_sharp := 13 |}%nat,
            {| heap := [PyGen g1; PyGen g2; PyGen g3; PyGen g4;
                        PyModel m1; PyModel m2;
                        PyList []; PyList []; PyList []; PyList [];
                        PyList []; PyList []; PyList []; PyList []];
               world := w' |}).
Proof.
  intros Hn. unfold setup, new_generator, new_model_object, get_samples, alloc, load,
    with_world, lift, initial, mbind, prog_bind, mret, prog_ret.
  rewrite Hn. cbn [heap world].
  destruct (flow_from_directory DATASET_DIR training true w) as [g1 w1] eqn:E1.
  cbn [heap world length app].
  destruct (flow_from_directory DATASET_DIR validation false w1) as [g2 w2] eqn:E2.
  cbn [heap world length app].
  destruct (flow_from_directory DATASET_DIR training true w2) as [g3 w3] eqn:E3.
  cbn [heap world length app].
  destruct (flow_from_directory DATASET_DIR validation false w3) as [g4 w4] eqn:E4.
  cbn [heap world length app lookup list_lookup].
  destruct (new_model (build_model n) w4) as [m1 w5] eqn:E5.
  cbn [heap world length app].
  destruct (new_model (build_model n) w5) as [m2 w6] eqn:E6.
  cbn [heap world length app].
  exists g1, g2, g3, g4, m1, m2, w1, w3, w6.
  rewrite E2, E4. split; [reflexivity|]. split; reflexivity.
Qed.

(** *** The script *)

Lemma train_binary_is_training_loop (G : globals) :
  train_binary local_mean next_batch train_on_batch test_on_batch G =
  training_loop next_batch train_on_batch test_on_batch
    (train_gen_bin G) (test_gen_bin G) (model_bin G)
    (train_loss_bin G) (val_loss_bin G) (train_acc_bin G) (val_acc_bin G)
    (adaptive_threshold local_mean) (steps_train_bin G) (steps_test_bin G) EPOCHS.
Proof. reflexivity. Qed.

Lemma train_sharpen_is_training_loop (G : globals) :
  train_sharpen next_batch train_on_batch test_on_batch G =
  training_loop next_batch train_on_batch test_on_batch
    (train_gen_sharp G) (test_gen_sharp G) (model_sharp G)
    (train_loss_sharp G) (val_loss_sharp G) (train_acc_sharp G) (val_acc_sharp G)
    sharpen (steps_train_sharp G) (steps_test_sharp G) EPOCHS.
Proof. reflexivity. Qed.

Lemma list_at_Some (s : state) (l : nat) (xs : list spec_float) :
  list_at s l = Some xs <-> heap s !! l = Some (PyList xs).
Proof.
  unfold list_at. destruct (heap s !! l) as [[| |]|]; split; congruence.
Qed.

Lemma setup_establishes (fs : os.entry) (w : World) :
  is_Some (num_classes fs) ->
  exists G s0,
    setup flow_from_directory samples new_model fs (initial w) = Some (G, s0) /\
    after_setup flow_from_directory samples G s0.
Proof.
  intros [n Hn].
  destruct (setup_runs fs w n Hn)
    as (g1 & g2 & g3 & g4 & m1 & m2 & w1 & w3 & w' & E2 & E4 & Hsetup).
  eexists _, _. split; [exact Hsetup|].
  unfold after_setup, is_gen, is_model, steps_from. cbn.
  split_and!;
    first [ apply (bool_decide_unpack _); vm_compute; exact I
          | eexists; split; reflexivity
          | eexists; reflexivity
          | exists w1; congruence
          | exists w3; congruence
          | solve [repeat constructor] ].
Qed.

Lemma Forall_histories (P : nat -> Prop) (a b c d e f g h : nat) :
  Forall P ([a; b; c; d] ++ [e; f; g; h]) ->
  P a /\ P b /\ P c /\ P d /\ P e /\ P f /\ P g /\ P h.
Proof.
  cbn. intros H. repeat (apply Forall_cons in H as [? H]). auto 10.
Qed.

(** The binary loop, for any number of epochs, from the state the setup
    leaves. *)
Lemma binary_loop_runs (G : globals) (s0 : state) (epochs : nat) :
  after_setup flow_from_directory samples G s0 ->
  runs (training_loop next_batch train_on_batch test_on_batch
          (train_gen_bin G) (test_gen_bin G) (model_bin G)
          (train_loss_bin G) (val_loss_bin G) (train_acc_bin G) (val_acc_bin G)
          (adaptive_threshold local_mean)
          (steps_train_bin G) (steps_test_bin G) epochs) s0
    (fun _ s1 =>
       evolves (bin_objects G) s0 s1 /\
       exists ltl lvl lta lva,
         length ltl = epochs /\ length lvl = epochs /\
         length lta = epochs /\ length lva = epochs /\
         heap s1 !! train_loss_bin G = Some (PyList ltl) /\
         heap s1 !! val_loss_bin G = Some (PyList lvl) /\
         heap s1 !! train_acc_bin G = Some (PyList lta) /\
         heap s1 !! val_acc_bin G = Some (PyList lva) /\
         (steps_test_bin G = 0%nat ->
          lvl = replicate epochs S754_nan /\ lva = replicate epochs S754_nan)).
Proof.
  intros (Hnd & Hg1 & Hg2 & _ & _ & Hm & _ & Hlists & _).
  apply NoDup_app in Hnd as (Hnd & _ & _).
  apply Forall_histories in Hlists as (H1 & H2 & H3 & H4 & _).
  eapply runs_mono.
  - apply (training_loop_runs _ _ _ _ _ _ _ _ _ _ _ s0 [] [] [] []);
      auto using adaptive_threshold_shape_preserving.
  - intros [] s1 [Hev H]. split; [exact Hev|exact H].
Qed.

(** The sharpen loop, for any number of epochs, from a state in which the
    setup's objects of the sharpen variant are as the setup left them. *)
Lemma sharpen_loop_runs (G : globals) (s0 s1 : state) (epochs : nat) :
  after_setup flow_from_directory samples G s0 ->
  evolves (bin_objects G) s0 s1 ->
  runs (training_loop next_batch train_on_batch test_on_batch
          (train_gen_sharp G) (test_gen_sharp G) (model_sharp G)
          (train_loss_sharp G) (val_loss_sharp G) (train_acc_sharp G) (val_acc_sharp G)
          sharpen (steps_train_sharp G) (steps_test_sharp G) epochs) s1
    (fun _ s2 =>
       evolves (sharp_objects G) s1 s2 /\
       exists ltl lvl lta lva,
         length ltl = epochs /\ length lvl = epochs /\
         length lta = epochs /\ length lva = epochs /\
         heap s2 !! train_loss_sharp G = Some (PyList ltl) /\
         heap s2 !! val_loss_sharp G = Some (PyList lvl) /\
         heap s2 !! train_acc_sharp G = Some (PyList lta) /\
         heap s2 !! val_acc_sharp G = Some (PyList lva) /\
         (steps_test_sharp G = 0%nat ->
          lvl = replicate epochs S754_nan /\ lva = replicate epochs S754_nan)).
Proof.
  intros (Hnd & _ & _ & Hg3 & Hg4 & _ & Hm & Hlists & _) Hev.
  apply NoDup_app in Hnd as (_ & Hdisj & Hnd).
  apply Forall_histories in Hlists as (_ & _ & _ & _ & H1 & H2 & H3 & H4).
  assert (Hframe : forall l, l ∈ sharp_objects G -> heap s1 !! l = heap s0 !! l).
  { intros l Hl. eapply evolves_frame; [exact Hev|]. intros Hin.
    now apply (Hdisj l Hin). }
  eapply runs_mono.
  - apply (training_loop_runs _ _ _ _ _ _ _ _ _ _ _ s1 [] [] [] []);
      eauto using sharpen_shape_preserving, evolves_is_gen, evolves_is_model.
    all: rewrite Hframe; [assumption|]; unfold sharp_objects;
      rewrite !elem_of_cons; tauto.
  - intros [] s2 [Hev2 H]. split; [exact Hev2|exact H].
Qed.


Lemma bin_not_sharp (G : globals) (l : nat) :
  NoDup (bin_objects G ++ sharp_objects G) ->
  l ∈ bin_objects G -> l ∉ sharp_objects G.
Proof. intros Hnd. apply NoDup_app in Hnd as (_ & Hdisj & _). apply Hdisj. Qed.



Lemma sharp_histories_objects (G : globals) : sharp_histories G ⊆ sharp_objects G.
Proof. unfold sharp_histories, sharp_objects. list_incl. Qed.




(** C3. Each step count is the sample count of its generator divided by
    the batch size 32 and rounded down; for 20 validation samples that is
    0 steps, the validation loop body never runs, and every epoch still
    appends the mean of an empty list, NaN, to the validation loss and
    accuracy histories. *)
Theorem zero_validation_steps (fs : os.entry) (w : World) :
  is_Some (num_classes fs) ->
  (forall shuffle w',
     samples (fst (flow_from_directory DATASET_DIR validation shuffle w')) = 20%nat) ->
  exists G s0 s,
    setup flow_from_directory samples new_model fs (initial w) = Some (G, s0) /\
    steps_from samples s0 (train_gen_bin G) (steps_train_bin G) /\
    steps_from samples s0 (test_gen_bin G) (steps_test_bin G) /\
    steps_from samples s0 (train_gen_sharp G) (steps_train_sharp G) /\
    steps_from samples s0 (test_gen_sharp G) (steps_test_sharp G) /\
    steps_test_bin G = (20 / BATCH_SIZE)%nat /\
    steps_test_sharp G = (20 / BATCH_SIZE)%nat /\
    (20 / BATCH_SIZE = 0)%nat /\
    np.mean [] = S754_nan /\
    script local_mean flow_from_directory samples next_batch new_model
      train_on_batch test_on_batch fs (initial w) = Some (G, s) /\
    Forall (fun l => list_at s l = Some (replicate EPOCHS (np.mean [])))
      [val_loss_bin G; val_acc_bin G; val_loss_sharp G; val_acc_sharp G].
Proof.
  intros Hfs H20.
  destruct (setup_establishes fs w Hfs) as (G & s0 & Hsetup & Hafter).
  destruct (binary_loop_runs G s0 EPOCHS Hafter) as ([] & s1 & Hbin & Hev1 & Hfill1).
  destruct (sharpen_loop_runs G s0 s1 EPOCHS Hafter Hev1)
    as ([] & s2 & Hsharp & Hev2 & Hfill2).
  pose proof Hafter
    as (Hnd & _ & _ & _ & _ & _ & _ & _ & St1 & St2 & St3 & St4 & [w1 Hvb] & [w3 Hvs]).
  rewrite H20 in Hvb, Hvs.
  exists G, s0, s2.
  repeat (split; [first [assumption | reflexivity]|]).
  split.
  { unfold script, mbind, prog_bind, mret, prog_ret. rewrite Hsetup.
    rewrite train_binary_is_training_loop, Hbin.
    rewrite train_sharpen_is_training_loop, Hsharp. reflexivity. }
  destruct Hfill1 as (? & lvl1 & ? & lva1 & _ & _ & _ & _ & _ & Evl1 & _ & Eva1 & Hnan1).
  destruct Hfill2 as (? & lvl2 & ? & lva2 & _ & _ & _ & _ & _ & Evl2 & _ & Eva2 & Hnan2).
  destruct (Hnan1 Hvb) as [-> ->]. destruct (Hnan2 Hvs) as [-> ->].
  change (np.mean []) with S754_nan.
  assert (Hb : forall l, l ∈ bin_objects G -> heap s2 !! l = heap s1 !! l).
  { intros l Hl. eapply evolves_frame; [exact Hev2|]. now apply bin_not_sharp. }
  repeat (apply Forall_cons; split); try (now constructor); apply list_at_Some.
  - rewrite Hb; [exact Evl1|]. unfold bin_objects. rewrite !elem_of_cons. tauto.
  - rewrite Hb; [exact Eva1|]. unfold bin_objects. rewrite !elem_of_cons. tauto.
  - exact Evl2.
  - exact Eva2.
Qed.

(** *** The models built for the class count *)

(** C7. The class count is the number of immediate subdirectories of the
    dataset root; when there is at least one, the statements before the
    loops build both models of the image pipeline by [build_model] for
    exactly that count, and the model built for it ends in a dense softmax
    layer with that many units, which is also the size of its output. *)
Theorem num_classes_is_subdirectory_count (fs : os.entry) (w : World) (n : nat) :
  num_classes fs = Some n -> (0 < n)%nat ->
  (exists name entries,
     os.resolve (os.split_path EmptyString DATASET_DIR) fs = Some (os.Dir name entries) /\
     n = length (filter (fun e => is_dir e = true) entries)) /\
  (exists G s0 w1 w2,
     setup flow_from_directory samples new_model fs (initial w) = Some (G, s0) /\
     heap s0 !! model_bin G = Some (PyModel (fst (new_model (build_model n) w1))) /\
     heap s0 !! model_sharp G = Some (PyModel (fst (new_model (build_model n) w2)))) /\
  last (keras.layers (build_model n)) = Some (keras.Dense n keras.softmax) /\
  keras.output_shape (build_model n) = Some [n].
Proof.
  intros Hn Hpos. split; [|split; [|split; reflexivity]].
  - unfold num_classes, os.walk_first in Hn.
    destruct (os.resolve _ fs) as [[name|name entries]|]; cbn in Hn; try discriminate.
    exists name, entries. split; [reflexivity|].
    injection Hn as <-. apply length_dirnames.
  - unfold setup, new_generator, new_model_object, get_samples, alloc, load,
      with_world, lift, initial, mbind, prog_bind, mret, prog_ret.
    rewrite Hn. cbn [heap world].
    destruct (flow_from_directory DATASET_DIR training true w) as [g1 w1].
    cbn [heap world length app].
    destruct (flow_from_directory DATASET_DIR validation false w1) as [g2 w2].
    cbn [heap world length app].
    destruct (flow_from_directory DATASET_DIR training true w2) as [g3 w3].
    cbn [heap world length app].
    destruct (flow_from_directory DATASET_DIR validation false w3) as [g4 w4].
    cbn [heap world length app lookup list_lookup].
    destruct (new_model (build_model n) w4) as [m1 w5] eqn:E5.
    cbn [heap world length app].
    destruct (new_model (build_model n) w5) as [m2 w6] eqn:E6.
    cbn [heap world length app].
    eexists _, _, w4, w5. split; [reflexivity|].
    rewrite E5, E6. split; reflexivity.
Qed.

End TrainingProperties.

(** *** The statements on the small concrete pipeline *)

Lemma toy_next_batch_images (g w : nat) :
  batch_images_ok (fst (fst (fst (toy_next_batch g w)))).
Proof. repeat constructor. Qed.

Lemma toy_dataset : is_Some (num_classes toy_fs).
Proof. exists 2%nat. reflexivity. Qed.

Lemma num_classes_is_subdirectory_count_witness :
  (exists name entries,
     os.resolve (os.split_path EmptyString DATASET_DIR) toy_fs
       = Some (os.Dir name entries) /\
     2%nat = length (filter (fun e => is_dir e = true) entries)) /\
  (exists G s0 w1 w2,
     setup toy_flow toy_samples toy_new_model toy_fs (initial 0%nat) = Some (G, s0) /\
     heap s0 !! model_bin G = Some (PyModel (fst (toy_new_model (build_model 2) w1))) /\
     heap s0 !! model_sharp G = Some (PyModel (fst (toy_new_model (build_model 2) w2)))) /\
  last (keras.layers (build_model 2)) = Some (keras.Dense 2 keras.softmax) /\
  keras.output_shape (build_model 2) = Some [2%nat].
Proof.
  apply (num_classes_is_subdirectory_count toy_flow toy_samples toy_new_model
           toy_fs 0%nat 2).
  - reflexivity.
  - lia.
Defined.



Lemma zero_validation_steps_witness :
  exists G s,
    script toy_local_mean toy_flow toy_samples toy_next_batch toy_new_model
      toy_on_batch toy_on_batch toy_fs (initial 0%nat) = Some (G, s) /\
    steps_test_bin G = 0%nat /\ steps_test_sharp G = 0%nat /\
    Forall (fun l => list_at s l = Some (replicate EPOCHS S754_nan))
      [val_loss_bin G; val_acc_bin G; val_loss_sharp G; val_acc_sharp G].
Proof.
  destruct (zero_validation_steps toy_local_mean toy_flow toy_samples
              toy_next_batch toy_new_model toy_on_batch toy_on_batch
              toy_next_batch_images toy_fs 0%nat toy_dataset
              (fun _ _ => eq_refl))
    as (G & s0 & s & _ & _ & _ & _ & _ & H1 & H2 & _ & _ & H3 & H4).
  exists G, s. auto.
Defined.

(** * Further properties of the code *)

(** ** [sharpen]: failure, shape, range and fixed points *)

Lemma tabulate_nth {A} (d : A) (l : list A) :
  (fun i => nth (Z.to_nat i) l d) <$> seqZ 0 (Z.of_nat (length l)) = l.
Proof.
  apply list_eq. intros i. rewrite list_lookup_fmap.
  destruct (decide (i < length l)%nat) as [Hi|Hi].
  - rewrite lookup_seqZ_lt by lia. cbn.
    destruct (lookup_lt_is_Some_2 l i Hi) as [x Hx]. rewrite Hx. f_equal.
    rewrite Z.add_0_l, Nat2Z.id. now apply nth_lookup_Some.
  - rewrite lookup_seqZ_ge by lia. cbn. symmetry. apply lookup_ge_None. lia.
Qed.

Lemma tabulate_image {A} (d : A) (m : list (list A)) :
  rectangular m ->
  (fun y => (fun x => cv2.at_ d m y x) <$> seqZ 0 (Z.of_nat (cols m)))
    <$> seqZ 0 (Z.of_nat (rows m)) = m.
Proof.
  intros Hrect. etransitivity; [|apply (tabulate_nth [] m)]. unfold rows.
  apply list_fmap_ext. intros i y Hy. apply lookup_seqZ in Hy as [-> Hi].
  rewrite Z.add_0_l, Nat2Z.id.
  destruct (lookup_lt_is_Some_2 m i ltac:(lia)) as [row Hrow].
  rewrite (nth_lookup_Some _ _ _ _ Hrow).
  unfold rectangular in Hrect. rewrite Forall_lookup in Hrect.
  rewrite <- (Hrect i row Hrow).
  etransitivity; [|apply (tabulate_nth d row)].
  apply list_fmap_ext. intros j x _. unfold cv2.at_.
  now rewrite Nat2Z.id, (nth_lookup_Some _ _ _ _ Hrow).
Qed.

Lemma at_in_image {A} (d : A) (m : list (list A)) (P : A -> Prop) (y x : Z) :
  rectangular m -> Forall (Forall P) m ->
  0 <= y < Z.of_nat (rows m) -> 0 <= x < Z.of_nat (cols m) ->
  P (cv2.at_ d m y x).
Proof.
  intros Hrect HP Hy Hx. unfold cv2.at_.
  destruct (lookup_lt_is_Some_2 m (Z.to_nat y)) as [row Hrow]; [unfold rows in Hy; lia|].
  rewrite (nth_lookup_Some _ _ _ _ Hrow).
  unfold rectangular in Hrect. rewrite Forall_lookup in Hrect, HP.
  pose proof (Hrect _ _ Hrow) as Hlen. pose proof (HP _ _ Hrow) as Hrow_P.
  destruct (lookup_lt_is_Some_2 row (Z.to_nat x)) as [p Hp]; [lia|].
  rewrite (nth_lookup_Some _ _ _ _ Hp).
  rewrite Forall_lookup in Hrow_P. eauto.
Qed.

(** What the sharpening kernel computes at one position. *)
Lemma correlate_sharpen (src : Z -> Z -> Z) (y x : Z) :
  cv2.correlate src [[0; -1; 0]; [-1; 5; -1]; [0; -1; 0]] y x =
  5 * src y x - src (y - 1) x - src (y + 1) x - src y (x - 1) - src y (x + 1).
Proof.
  unfold cv2.correlate. cbn.
  change (Z.of_nat 3 `div` 2) with 1.
  change (Z.of_nat 0) with 0. change (Z.of_nat 1) with 1. change (Z.of_nat 2) with 2.
  replace (y + 0 - 1) with (y - 1) by lia.
  replace (x + 0 - 1) with (x - 1) by lia.
  replace (y + 1 - 1) with y by lia.
  replace (x + 1 - 1) with x by lia.
  replace (y + 2 - 1) with (y + 1) by lia.
  replace (x + 2 - 1) with (x + 1) by lia.
  lia.
Qed.

(** X1. [sharpen] raises exactly on an image without pixels; on any other
    array it returns an image of the same shape whose values are all
    8-bit, whatever the values of the input. *)
Theorem sharpen_fails_only_on_empty (img : image Z) :
  (sharpen img = None <-> Mat_empty img = true) /\
  (rectangular img -> forall out, sharpen img = Some out ->
     shape out = shape img /\ u8_image out).
Proof.
  unfold sharpen, cv2.filter2D. split.
  - destruct (Mat_empty img); cbn; split; congruence.
  - intros Hrect out. destruct (Mat_empty img) eqn:Hne; cbn; [discriminate|].
    intros [= <-]. split.
    + rewrite (shape_rows_cols img Hrect). unfold shape.
      rewrite <- list_fmap_compose.
      rewrite (const_fmap _ _ (cols img)).
      * rewrite length_seqZ. f_equal. unfold rows. lia.
      * intros i y _. cbn. rewrite length_fmap, length_seqZ. lia.
    + unfold u8_image. apply Forall_fmap, Forall_true. intros y. cbn.
      apply Forall_fmap, Forall_true. intros x. cbn.
      repeat split; apply saturate_cast_uchar_u8.
Qed.

(** The sharpening kernel leaves a value that is 0 or 255 as it is when
    its four neighbours are 0 or 255 too. *)
Lemma sharpen_value_binary (v a b c d : Z) :
  (v = 0 \/ v = 255) -> (a = 0 \/ a = 255) -> (b = 0 \/ b = 255) ->
  (c = 0 \/ c = 255) -> (d = 0 \/ d = 255) ->
  cv2.saturate_cast_uchar (5 * v - a - b - c - d) = v.
Proof. unfold cv2.saturate_cast_uchar. lia. Qed.

Lemma sharpen_binary_fixed (img : image Z) :
  Mat_empty img = false -> rectangular img -> binary_image img ->
  sharpen img = Some img.
Proof.
  intros Hne Hrect Hbin. unfold sharpen, cv2.filter2D. rewrite Hne. cbn [orb Mat_empty].
  f_equal. etransitivity; [|apply (tabulate_image (0, 0, 0) img Hrect)].
  apply Mat_empty_false in Hne as [Hr Hc].
  apply list_fmap_ext. intros i y Hy. apply lookup_seqZ in Hy as [-> Hi].
  apply list_fmap_ext. intros j x Hx. apply lookup_seqZ in Hx as [-> Hj].
  cbn beta. unfold pixel in *.
  assert (Hread : forall ch yy xx,
    let v := chan ch (cv2.at_ (0, 0, 0) img
               (cv2.borderInterpolate yy (Z.of_nat (rows img)) cv2.BORDER_REFLECT_101)
               (cv2.borderInterpolate xx (Z.of_nat (cols img)) cv2.BORDER_REFLECT_101)) in
    v = 0 \/ v = 255).
  { intros ch yy xx.
    apply (at_in_image (0, 0, 0) img
             (fun p => forall c, chan c p = 0 \/ chan c p = 255));
      auto; apply borderInterpolate_range; lia. }
  assert (Hcentre : forall p, 0 <= p -> forall len, p < len ->
            cv2.borderInterpolate p len cv2.BORDER_REFLECT_101 = p).
  { intros p Hp len Hlen. unfold cv2.borderInterpolate.
    destruct (Z.leb_spec 0 p), (Z.ltb_spec p len); cbn; lia. }
  assert (Hpix : forall p q : pixel Z, (forall ch, chan ch p = chan ch q) -> p = q).
  { intros [[b1 g1] r1] [[b2 g2] r2] H.
    pose proof (H chB). pose proof (H chG). pose proof (H chR). cbn in *. congruence. }
  apply Hpix. intros ch.
  replace (chan ch (mkpixel _)) with
    (cv2.saturate_cast_uchar
       (cv2.correlate
          (fun yy xx =>
             chan ch (cv2.at_ (0, 0, 0) img
                        (cv2.borderInterpolate yy (Z.of_nat (rows img)) cv2.BORDER_REFLECT_101)
                        (cv2.borderInterpolate xx (Z.of_nat (cols img)) cv2.BORDER_REFLECT_101)))
          [[0; -1; 0]; [-1; 5; -1]; [0; -1; 0]]
          (0 + Z.of_nat i) (0 + Z.of_nat j)))
    by (now destruct ch).
  rewrite correlate_sharpen.
  rewrite (sharpen_value_binary _ _ _ _ _
             (Hread ch _ _) (Hread ch _ _) (Hread ch _ _) (Hread ch _ _) (Hread ch _ _)).
  rewrite !Z.add_0_l.
  rewrite (Hcentre _ (Nat2Z.is_nonneg i) _ Hi), (Hcentre _ (Nat2Z.is_nonneg j) _ Hj).
  reflexivity.
Qed.

(** X2. [sharpen] returns unchanged every image whose values are all 0 or
    255: 5 times a value less its four neighbours saturates back to the
    value.  In particular sharpening the output of [adaptive_threshold]
    changes nothing. *)
Theorem sharpen_keeps_binary_images :
  (forall img, Mat_empty img = false -> rectangular img -> binary_image img ->
     sharpen img = Some img) /\
  (forall local_mean img out, rectangular img ->
     adaptive_threshold local_mean img = Some out -> sharpen out = Some out).
Proof.
  split; [exact sharpen_binary_fixed|].
  intros local_mean img out Hrect Hout.
  assert (Hne : Mat_empty img = false).
  { destruct (Mat_empty img) eqn:E; [|reflexivity].
    unfold adaptive_threshold, cv2.cvtColor_BGR2GRAY in Hout.
    rewrite E in Hout. discriminate. }
  rewrite adaptive_threshold_closed_form in Hout by assumption.
  injection Hout as <-.
  apply sharpen_binary_fixed.
  - now rewrite Mat_empty_imap.
  - eapply rectangular_of_shape; [apply shape_imap2|exact Hrect].
  - apply Forall_lookup. intros y row Hrow.
    apply list_lookup_imap_Some in Hrow as (row0 & _ & ->).
    apply Forall_lookup. intros x q Hq.
    apply list_lookup_imap_Some in Hq as (p & _ & ->).
    intros c. unfold cv2.GRAY2BGR.
    match goal with |- context [if ?b then _ else _] => destruct b end;
      destruct c; cbn; auto.
Qed.

Lemma sharpen_keeps_binary_images_witness :
  sharpen [[(0, 255, 0); (255, 255, 0)]; [(0, 0, 0); (255, 0, 255)]]
  = Some [[(0, 255, 0); (255, 255, 0)]; [(0, 0, 0); (255, 0, 255)]].
Proof.
  apply (proj1 sharpen_keeps_binary_images).
  - reflexivity.
  - repeat constructor.
  - unfold binary_image.
    repeat first [apply List.Forall_nil | apply List.Forall_cons];
      intros []; cbn; auto.
Defined.

(** ** [preprocess_batch]: what the preprocessing function sees *)

Lemma preprocess_batch_unfold (batch_x : list (image spec_float))
    (preprocess_func : image Z -> option (image Z)) :
  preprocess_batch batch_x preprocess_func =
  fmap (M:=list) renormalize <$> mapM (fun img => preprocess_func (denormalize img)) batch_x.
Proof.
  unfold preprocess_batch. fold denormalize.
  change (fun img => preprocess_func
            (img_map np.astype_uint8
               (img_map (fun v => np.f32_mul v (np.f32_of_Z 255)) img)))
    with (fun img => preprocess_func (denormalize img)).
  destruct (mapM _ batch_x); reflexivity.
Qed.

Lemma denormalize_rescale (k : Z) :
  is_u8 k -> np.astype_uint8 (np.f32_mul (rescale k) (np.f32_of_Z 255)) = k.
Proof.
  intros Hk.
  assert (Hall : forallb (fun k =>
            np.astype_uint8 (np.f32_mul (rescale k) (np.f32_of_Z 255)) =? k)
          (seqZ 0 256) = true) by (vm_compute; reflexivity).
  rewrite forallb_forall in Hall. apply Z.eqb_eq, Hall.
  apply list_elem_of_In, elem_of_seqZ. unfold is_u8 in Hk. lia.
Qed.

(** X4. Denormalising undoes the generator's rescaling exactly: for each
    of the 256 8-bit values, the value rescaled by 1/255 in binary32,
    multiplied by 255 and truncated is the value itself, whether the
    rescaling product is formed in binary32 or in binary64. *)
Theorem denormalize_undoes_rescale (k : Z) :
  is_u8 k ->
  np.astype_uint8 (np.f32_mul (rescale k) (np.f32_of_Z 255)) = k /\
  np.astype_uint8 (np.f32_mul (rescale_wide k) (np.f32_of_Z 255)) = k.
Proof.
  intros Hk.
  assert (Hall : forallb (fun k =>
            (np.astype_uint8 (np.f32_mul (rescale k) (np.f32_of_Z 255)) =? k) &&
            (np.astype_uint8 (np.f32_mul (rescale_wide k) (np.f32_of_Z 255)) =? k))
          (seqZ 0 256) = true) by (vm_compute; reflexivity).
  rewrite forallb_forall in Hall.
  specialize (Hall k). rewrite andb_true_iff, !Z.eqb_eq in Hall.
  apply Hall, list_elem_of_In, elem_of_seqZ. unfold is_u8 in Hk. lia.
Qed.

Lemma denormalize_undoes_rescale_witness :
  np.astype_uint8 (np.f32_mul (rescale 200) (np.f32_of_Z 255)) = 200 /\
  np.astype_uint8 (np.f32_mul (rescale_wide 200) (np.f32_of_Z 255)) = 200.
Proof. apply (denormalize_undoes_rescale 200). unfold is_u8. lia. Defined.

Lemma denormalize_rescaled_image (img : image Z) :
  u8_image img -> denormalize (img_map rescale img) = img.
Proof.
  intros Hu. unfold denormalize, img_map.
  rewrite <- !list_fmap_compose.
  etransitivity; [|apply list_fmap_id].
  apply Forall_fmap_ext_1. eapply Forall_impl; [exact Hu|].
  intros row Hrow. cbn. rewrite <- !list_fmap_compose.
  etransitivity; [|apply list_fmap_id].
  apply Forall_fmap_ext_1. eapply Forall_impl; [exact Hrow|].
  intros [[b g] r] (Hb & Hg & Hr). cbn in *. unfold pmap, mkpixel. cbn.
  now rewrite !denormalize_rescale.
Qed.

(** X5. On a batch the generator made from 8-bit images (rescaled by
    1/255, nothing else), [preprocess_batch] applies the preprocessing
    function to exactly those 8-bit images and divides its results by
    255.0: the round trip through [0, 1] loses nothing on the way in. *)
Theorem preprocess_batch_on_rescaled (batch : list (image Z))
    (preprocess_func : image Z -> option (image Z)) :
  Forall u8_image batch ->
  preprocess_batch (img_map rescale <$> batch) preprocess_func =
  fmap (M:=list) renormalize <$> mapM preprocess_func batch.
Proof.
  intros Hu. rewrite preprocess_batch_unfold. f_equal.
  induction Hu as [|img batch Himg _ IH]; [reflexivity|].
  cbn. rewrite (denormalize_rescaled_image img Himg).
  destruct (preprocess_func img); [|reflexivity]. cbn.
  cbn in IH. now rewrite IH.
Qed.

Lemma preprocess_batch_on_rescaled_witness :
  preprocess_batch (img_map rescale <$> [[[(0, 128, 255)]]]) sharpen =
  fmap (M:=list) renormalize <$> mapM sharpen [[[(0, 128, 255)]]].
Proof.
  apply preprocess_batch_on_rescaled.
  repeat constructor; cbn; unfold is_u8; lia.
Defined.

(** ** Label encoding: codes, order and decoding *)

Lemma string_compare_trans_le (s1 s2 s3 : string) :
  String.compare s1 s2 <> Gt -> String.compare s2 s3 <> Gt ->
  String.compare s1 s3 <> Gt.
Proof.
  revert s2 s3. induction s1 as [|a s1 IH]; intros [|b s2] [|c s3]; cbn;
    try congruence.
  unfold Ascii.compare.
  destruct (N.compare_spec (N_of_ascii a) (N_of_ascii b)) as [Hab|Hab|Hab];
    destruct (N.compare_spec (N_of_ascii b) (N_of_ascii c)) as [Hbc|Hbc|Hbc];
    destruct (N.compare_spec (N_of_ascii a) (N_of_ascii c)) as [Hac|Hac|Hac];
    try congruence; try lia; eauto.
Qed.

#[global] Instance str_le_trans : Transitive sklearn.str_le.
Proof.
  intros s1 s2 s3. unfold sklearn.str_le, String.leb. intros H12 H23.
  pose proof (string_compare_trans_le s1 s2 s3) as H.
  destruct (String.compare s1 s2), (String.compare s2 s3), (String.compare s1 s3);
    try discriminate; try reflexivity; exfalso; apply H; congruence.
Qed.

#[global] Instance str_le_total : Total sklearn.str_le.
Proof. intros s1 s2. apply String.leb_total. Qed.

Lemma unique_StronglySorted (values : list string) :
  StronglySorted sklearn.str_le (sklearn.unique values).
Proof. apply (StronglySorted_merge_sort _). Qed.

Lemma StronglySorted_lookup_le {A} (R : relation A) `{!Reflexive R} (l : list A)
    (i j : nat) (x y : A) :
  StronglySorted R l -> (i <= j)%nat -> l !! i = Some x -> l !! j = Some y -> R x y.
Proof.
  intros Hs. revert i j. induction Hs as [|z l Hs IH Hall]; intros i j Hij Hi Hj.
  - discriminate.
  - destruct i as [|i], j as [|j]; cbn in *; simplify_eq.
    + reflexivity.
    + rewrite Forall_forall in Hall. apply Hall. eapply list_elem_of_lookup_2, Hj.
    + lia.
    + apply (IH i j); [lia|assumption..].
Qed.

#[global] Instance str_le_refl : Reflexive sklearn.str_le.
Proof. intros s. destruct (String.leb_total s s); assumption. Qed.

(** X6. Label encoding always succeeds on the column it is fitted on.  Two
    rows get the same code exactly when they have the same label, the
    codes follow the order of the labels, and the class at the position of
    a row's code is the row's label. *)
Theorem label_encoding_is_order_isomorphism (y : list string) :
  exists classes codes,
    sklearn.fit_transform y = Some (classes, codes) /\
    length codes = length y /\
    forall i j vi vj ci cj,
      y !! i = Some vi -> y !! j = Some vj ->
      codes !! i = Some ci -> codes !! j = Some cj ->
      classes !! ci = Some vi /\
      (ci = cj <-> vi = vj) /\
      ((ci <= cj)%nat <-> String.leb vi vj = true).
Proof.
  destruct (fit_transform_codes y) as (codes & Hfit & Hlen & Hpos & _).
  exists (sklearn.unique y), codes. split; [exact Hfit|]. split; [exact Hlen|].
  intros i j vi vj ci cj Hi Hj Hci Hcj.
  destruct (Forall2_lookup_l _ _ _ _ _ Hpos Hi) as (ci' & Hci' & Hvi).
  destruct (Forall2_lookup_l _ _ _ _ _ Hpos Hj) as (cj' & Hcj' & Hvj).
  assert (ci' = ci) by congruence. assert (cj' = cj) by congruence. subst ci' cj'.
  pose proof (unique_NoDup y) as Hnd.
  pose proof (unique_StronglySorted y) as Hsorted.
  assert (Heq : ci = cj <-> vi = vj).
  { split; [intros ->; congruence|intros ->]. eapply NoDup_lookup; eauto. }
  split; [exact Hvi|]. split; [exact Heq|]. split.
  - intros Hle. eapply (StronglySorted_lookup_le sklearn.str_le); eauto.
  - intros Hle. destruct (decide (ci <= cj)%nat) as [|Hgt]; [assumption|].
    assert (Hrev : sklearn.str_le vj vi)
      by (eapply (StronglySorted_lookup_le sklearn.str_le _ cj ci); eauto; lia).
    assert (vi = vj) by (apply String.leb_antisym; assumption).
    apply Heq in H. lia.
Qed.

(** ** The split is a partition that keeps rows and labels together *)

Lemma safe_indexing_zip {A B} (X : list A) (y : list B) (indices : list nat)
    (Xs : list A) (ys : list B) :
  sklearn.safe_indexing X indices = Some Xs ->
  sklearn.safe_indexing y indices = Some ys ->
  sklearn.safe_indexing (zip X y) indices = Some (zip Xs ys).
Proof.
  unfold sklearn.safe_indexing. intros HX Hy.
  apply mapM_Some_1 in HX. apply mapM_Some_1 in Hy. apply mapM_Some_2.
  revert ys Hy. induction HX as [|i x idx Xs Hx _ IH]; intros ys Hy.
  - inversion Hy. constructor.
  - inversion Hy as [|? v ? ys' Hv Hy']; subst. constructor; [|now apply IH].
    apply lookup_zip_with_Some. eauto.
Qed.

Lemma safe_indexing_app {A} (a : list A) (i1 i2 : list nat) (o1 o2 : list A) :
  sklearn.safe_indexing a i1 = Some o1 ->
  sklearn.safe_indexing a i2 = Some o2 ->
  sklearn.safe_indexing a (i1 ++ i2) = Some (o1 ++ o2).
Proof.
  unfold sklearn.safe_indexing. intros H1 H2.
  apply mapM_Some_1 in H1. apply mapM_Some_1 in H2. apply mapM_Some_2.
  now apply Forall2_app.
Qed.

Lemma safe_indexing_permutation {A} (a : list A) (indices : list nat) (out : list A) :
  indices ≡ₚ seq 0 (length a) ->
  sklearn.safe_indexing a indices = Some out ->
  out ≡ₚ a.
Proof.
  unfold sklearn.safe_indexing. intros Hperm Hout.
  apply mapM_Some_1 in Hout.
  assert (Hout' : out = omap (fun i => a !! i) indices).
  { clear Hperm. induction Hout as [|i x idx out Hx _ IH]; [reflexivity|].
    cbn. rewrite Hx. cbn. now f_equal. }
  rewrite Hout', Hperm. clear.
  induction a as [|x a IH] using rev_ind; [reflexivity|].
  rewrite length_app. cbn. rewrite Nat.add_1_r, seq_S, omap_app. cbn.
  rewrite list_lookup_middle by reflexivity. cbn.
  apply Permutation_app; [|reflexivity].
  etransitivity; [|exact IH].
  match goal with |- ?l ≡ₚ ?r => assert (l = r) as ->; [|reflexivity] end.
  apply list_omap_ext.
  apply Forall2_same_length_lookup. split; [reflexivity|].
  intros i j k Hj Hk. assert (j = k) by congruence. subst k.
  apply lookup_seq in Hj as [-> Hi]. cbn. now rewrite lookup_app_l.
Qed.

Section SplitPartition.

Context {RandomState : Type}.
Variable seeded : Z -> RandomState.
Variable permutation : RandomState -> nat -> list nat * RandomState.

Hypothesis permutation_range :
  forall rng n, fst (permutation rng n) ≡ₚ seq 0 n.

(** X7. Whenever the split returns, every row of the table lands in
    exactly one of the two parts, together with its own label: the
    training rows paired with the training labels and the test rows paired
    with the test labels are, up to order, the rows paired with the
    labels. *)
Theorem train_test_split_is_partition {A B} (X : list A) (y : list B)
    (test_size : spec_float) (random_state : option Z) (global : RandomState)
    (X_train X_test : list A) (y_train y_test : list B) :
  fst (sklearn.train_test_split seeded permutation X y test_size random_state global)
    = Some (X_train, X_test, y_train, y_test) ->
  length X = length y /\
  length X_train = length y_train /\ length X_test = length y_test /\
  zip X_train y_train ++ zip X_test y_test ≡ₚ zip X y.
Proof.
  unfold sklearn.train_test_split.
  destruct (Nat.eqb_spec (length X) (length y)) as [Hlen|]; cbn [negb fst]; [|discriminate].
  unfold sklearn.validate_shuffle_split.
  destruct (negb _); [discriminate|].
  set (n_test := np.ceil _).
  destruct (Z.leb_spec (Z.of_nat (length X) - n_test) 0) as [|Hpos]; [discriminate|].
  pose proof (permutation_range
                (sklearn.check_random_state seeded random_state global) (length X)) as Hperm.
  destruct (permutation _ (length X)) as [perm rng']. cbn [fst] in *.
  set (ind_test := take (Z.to_nat n_test) perm).
  set (ind_train := take (Z.to_nat (Z.of_nat (length X) - n_test))
                      (drop (Z.to_nat n_test) perm)).
  destruct (sklearn.safe_indexing X ind_train) as [Xtr|] eqn:HXtr; [|discriminate].
  destruct (sklearn.safe_indexing X ind_test) as [Xte|] eqn:HXte; [|discriminate].
  destruct (sklearn.safe_indexing y ind_train) as [ytr|] eqn:Hytr; [|discriminate].
  destruct (sklearn.safe_indexing y ind_test) as [yte|] eqn:Hyte; [|discriminate].
  cbn. intros [= <- <- <- <-].
  assert (L1 : length Xtr = length ytr).
  { rewrite <- (length_mapM _ _ _ HXtr), <- (length_mapM _ _ _ Hytr). reflexivity. }
  assert (L2 : length Xte = length yte).
  { rewrite <- (length_mapM _ _ _ HXte), <- (length_mapM _ _ _ Hyte). reflexivity. }
  repeat (split; [assumption|]).
  rewrite (Permutation_app_comm (zip Xtr ytr)).
  apply (safe_indexing_permutation (zip X y) (ind_test ++ ind_train)).
  - subst ind_test ind_train. rewrite take_take_drop.
    rewrite take_ge; [|rewrite (Permutation_length Hperm), length_seq; lia].
    rewrite Hperm.
    replace (length (zip X y)) with (length X); [reflexivity|].
    symmetry. apply length_zip_with_l_eq. exact Hlen.
  - apply safe_indexing_app; now apply safe_indexing_zip.
Qed.

End SplitPartition.

Lemma train_test_split_is_partition_witness :
  zip [13; 12; 11; 10]%nat ["b"; "a"; "b"; "a"]%string
    ++ zip [14]%nat ["a"]%string
  ≡ₚ zip [10; 11; 12; 13; 14]%nat ["a"; "b"; "a"; "b"; "a"]%string.
Proof.
  apply (train_test_split_is_partition (fun _ => tt) toy_permutation
           (fun _ _ => reverse_Permutation _)
           [10; 11; 12; 13; 14]%nat ["a"; "b"; "a"; "b"; "a"]%string
           test_size_literal (Some 42) tt
           [13; 12; 11; 10]%nat [14]%nat ["b"; "a"; "b"; "a"]%string ["a"]%string).
  vm_compute. reflexivity.
Defined.

(** ** What the binary variant feeds its classifier *)

Lemma adaptive_threshold_output_binary
    (local_mean : cv2.AdaptiveThresholdTypes -> plane -> Z -> plane)
    (img out : image Z) :
  adaptive_threshold local_mean img = Some out ->
  Forall (Forall binary_pixel) out.
Proof.
  intros Hout.
  assert (Hne : Mat_empty img = false).
  { destruct (Mat_empty img) eqn:E; [|reflexivity].
    unfold adaptive_threshold, cv2.cvtColor_BGR2GRAY in Hout.
    rewrite E in Hout. discriminate. }
  rewrite adaptive_threshold_closed_form in Hout by assumption.
  injection Hout as <-.
  apply Forall_lookup. intros y row Hrow.
  apply list_lookup_imap_Some in Hrow as (row0 & _ & ->).
  apply Forall_lookup. intros x q Hq.
  apply list_lookup_imap_Some in Hq as (p & _ & ->).
  unfold binary_pixel, cv2.GRAY2BGR.
  match goal with |- context [if ?c then _ else _] => destruct c end; eauto.
Qed.

(** X12. A batch prepared with the adaptive threshold holds only the two
    values 0.0 and 1.0, the same on the three channels of a pixel: the
    classifier of the binary variant never sees a colour or an
    intermediate intensity. *)
Theorem binary_batch_is_zero_or_one
    (local_mean : cv2.AdaptiveThresholdTypes -> plane -> Z -> plane)
    (batch_x out : list (image spec_float)) :
  preprocess_batch batch_x (adaptive_threshold local_mean) = Some out ->
  Forall (Forall (Forall (fun p : pixel spec_float =>
            exists v, (v = np.f64_of_Z 0 \/ v = np.f64_of_Z 1) /\ p = (v, v, v))))
    out.
Proof.
  rewrite preprocess_batch_unfold. intros Hout.
  destruct (mapM _ batch_x) as [imgs|] eqn:Himgs; [|discriminate].
  injection Hout as <-. apply mapM_Some_1 in Himgs.
  apply Forall_fmap.
  induction Himgs as [|img o batch imgs Ho _ IH]; constructor; [|exact IH].
  cbn. unfold renormalize, img_map.
  apply adaptive_threshold_output_binary in Ho.
  apply Forall_fmap. eapply Forall_impl; [exact Ho|].
  intros row Hrow. cbn. apply Forall_fmap. eapply Forall_impl; [exact Hrow|].
  intros p (v & [-> | ->] & ->); cbn.
  - exists (np.f64_of_Z 0). split; [now left|]. vm_compute. reflexivity.
  - exists (np.f64_of_Z 1). split; [now right|]. vm_compute. reflexivity.
Qed.

Lemma binary_batch_is_zero_or_one_witness :
  Forall (Forall (Forall (fun p : pixel spec_float =>
            exists v, (v = np.f64_of_Z 0 \/ v = np.f64_of_Z 1) /\ p = (v, v, v))))
    [[[(np.f64_of_Z 1, np.f64_of_Z 1, np.f64_of_Z 1)]]].
Proof.
  apply (binary_batch_is_zero_or_one toy_local_mean
           [[[(one_half, one_half, one_half)]]]).
  vm_compute. reflexivity.
Defined.

(** ** The script: what it needs, what it skips, how it ends *)

Section ScriptFurther.

Context {Model Gen World Labels : Type}.

Variable local_mean : cv2.AdaptiveThresholdTypes -> plane -> Z -> plane.
Variable flow_from_directory : string -> subset -> bool -> World -> Gen * World.
Variable samples : Gen -> nat.
Variable next_batch :
  Gen -> World -> (list (image spec_float) * Labels) * Gen * World.
Variable new_model : keras.Sequential -> World -> Model * World.
Variable train_on_batch :
  Model -> list (image spec_float) -> Labels -> World ->
  (spec_float * spec_float) * Model * World.
Variable test_on_batch :
  Model -> list (image spec_float) -> Labels -> World ->
  (spec_float * spec_float) * Model * World.
Variable save : Model -> string -> World -> World.
Variable reset : Gen -> Gen.

Local Abbreviation state := (@state Model Gen World).
Local Abbreviation prog := (@prog Model Gen World).

Ltac incl := let x := fresh "x" in intros x; rewrite ?elem_of_cons, ?elem_of_nil; tauto.

Ltac not_in :=
  rewrite ?not_elem_of_cons;
  repeat split; solve [apply not_elem_of_nil | congruence].

Ltac split_nodup H :=
  repeat (let Hn := fresh "Hn" in apply NoDup_cons in H as [Hn H];
          rewrite ?not_elem_of_cons in Hn);
  destruct_and?.

Ltac framed :=
  repeat match goal with
         | Hev : evolves ?W ?s ?s' |- heap ?s' !! ?l = _ =>
             rewrite (evolves_frame W s s' l Hev) by not_in
         end;
  try eassumption.




Section Completion.

Hypothesis next_batch_images :
  forall g w, batch_images_ok (fst (fst (fst (next_batch g w)))).


End Completion.

(** *** A dataset smaller than one batch *)

Lemma list_append_keeps_world (l : nat) (v : spec_float) (xs : list spec_float)
    (s : state) :
  heap s !! l = Some (PyList xs) ->
  runs (list_append l v) s (fun _ s' =>
    world s' = world s /\ evolves [l] s s' /\
    heap s' !! l = Some (PyList (xs ++ [v]))).
Proof.
  intros Hl. unfold list_append, runs, mbind, prog_bind, load, store.
  rewrite Hl. cbn.
  rewrite decide_True by (eapply lookup_lt_Some; eauto).
  eexists _, _. split; [reflexivity|]. split; [reflexivity|]. split.
  - eapply evolves_store; [exact Hl|exact I].
  - cbn. apply list_lookup_insert_eq. eapply lookup_lt_Some; eauto.
Qed.

(** An epoch without any step touches nothing but the four history lists,
    and appends NaN to each. *)
Lemma training_epoch_idle (gen_train gen_test model : nat)
    (train_loss_list val_loss_list train_acc_list val_acc_list : nat)
    (preprocess_func : image Z -> option (image Z)) (s : state)
    (xtl xvl xta xva : list spec_float) :
  NoDup [train_loss_list; val_loss_list; train_acc_list; val_acc_list] ->
  heap s !! train_loss_list = Some (PyList xtl) ->
  heap s !! val_loss_list = Some (PyList xvl) ->
  heap s !! train_acc_list = Some (PyList xta) ->
  heap s !! val_acc_list = Some (PyList xva) ->
  runs (training_epoch next_batch train_on_batch test_on_batch
          gen_train gen_test model
          train_loss_list val_loss_list train_acc_list val_acc_list
          preprocess_func 0 0) s
    (fun _ s' =>
       world s' = world s /\
       evolves [train_loss_list; val_loss_list; train_acc_list; val_acc_list] s s' /\
       heap s' !! train_loss_list = Some (PyList (xtl ++ [S754_nan])) /\
       heap s' !! val_loss_list = Some (PyList (xvl ++ [S754_nan])) /\
       heap s' !! train_acc_list = Some (PyList (xta ++ [S754_nan])) /\
       heap s' !! val_acc_list = Some (PyList (xva ++ [S754_nan]))).
Proof.
  intros Hnd Htl Hvl Hta Hva. split_nodup Hnd.
  unfold training_epoch, for_range. cbn [seq for_each].
  apply runs_bind, runs_ret. cbn beta iota.
  change (np.mean []) with S754_nan.
  apply runs_bind. eapply runs_mono; [apply (list_append_keeps_world _ _ xtl); eassumption|].
  intros _ s1 (Hw1 & Hev1 & Htl1).
  apply runs_bind. eapply runs_mono; [apply (list_append_keeps_world _ _ xta); framed|].
  intros _ s2 (Hw2 & Hev2 & Hta2).
  apply runs_bind, runs_ret. cbn beta iota.
  change (np.mean []) with S754_nan.
  apply runs_bind. eapply runs_mono; [apply (list_append_keeps_world _ _ xvl); framed|].
  intros _ s3 (Hw3 & Hev3 & Hvl3).
  eapply runs_mono; [apply (list_append_keeps_world _ _ xva); framed|].
  intros _ s4 (Hw4 & Hev4 & Hva4).
  split; [congruence|]. split.
  - eapply (evolves_trans samples next_batch train_on_batch test_on_batch);
      [eapply evolves_weaken; [|exact Hev1]; incl|].
    eapply (evolves_trans samples next_batch train_on_batch test_on_batch);
      [eapply evolves_weaken; [|exact Hev2]; incl|].
    eapply (evolves_trans samples next_batch train_on_batch test_on_batch);
      [eapply evolves_weaken; [|exact Hev3]; incl|].
    eapply evolves_weaken; [|exact Hev4]. incl.
  - split; [framed|]. split; [framed|]. split; framed.
Qed.

Lemma training_loop_idle (gen_train gen_test model : nat)
    (train_loss_list val_loss_list train_acc_list val_acc_list : nat)
    (preprocess_func : image Z -> option (image Z)) (epochs : nat) (s : state) :
  NoDup [train_loss_list; val_loss_list; train_acc_list; val_acc_list] ->
  Forall (fun l => heap s !! l = Some (PyList []))
    [train_loss_list; val_loss_list; train_acc_list; val_acc_list] ->
  runs (training_loop next_batch train_on_batch test_on_batch
          gen_train gen_test model
          train_loss_list val_loss_list train_acc_list val_acc_list
          preprocess_func 0 0 epochs) s
    (fun _ s' =>
       world s' = world s /\
       evolves [train_loss_list; val_loss_list; train_acc_list; val_acc_list] s s' /\
       Forall (fun l => heap s' !! l = Some (PyList (replicate epochs S754_nan)))
         [train_loss_list; val_loss_list; train_acc_list; val_acc_list]).
Proof.
  intros Hnd Hlists. unfold training_loop, for_range.
  eapply runs_mono.
  - apply (runs_for_each _ (fun rem (_ : unit) s' =>
      world s' = world s /\
      evolves [train_loss_list; val_loss_list; train_acc_list; val_acc_list] s s' /\
      exists k, (k + length rem = epochs)%nat /\
        Forall (fun l => heap s' !! l = Some (PyList (replicate k S754_nan)))
          [train_loss_list; val_loss_list; train_acc_list; val_acc_list])).
    + split; [reflexivity|]. split; [apply evolves_refl|].
      exists 0%nat. rewrite length_seq. split; [reflexivity|exact Hlists].
    + intros epoch rem [] s0 (Hw & Hev & k & Hk & Hl).
      repeat (apply Forall_cons in Hl as [? Hl]).
      eapply runs_mono; [apply training_epoch_idle; eassumption|].
      intros [] s1 (Hw1 & Hev1 & E1 & E2 & E3 & E4).
      split; [congruence|].
      split; [eapply (evolves_trans samples next_batch train_on_batch test_on_batch);
              eassumption|].
      exists (S k). cbn [length] in Hk. split; [lia|].
      rewrite replicate_S_end.
      repeat (apply Forall_cons; split; [assumption|]). constructor.
  - intros [] s' (Hw & Hev & k & Hk & Hl). cbn [length] in Hk.
    rewrite Nat.add_0_r in Hk. subst k. auto.
Qed.

(** Each of the four step counts is the sample count of a directory
    iterator over [DATASET_DIR], divided by the batch size. *)
Lemma setup_step_counts (fs : os.entry) (w : World) (G : globals) (s0 : state) :
  setup flow_from_directory samples new_model fs (initial w) = Some (G, s0) ->
  exists w1 w2 w3 w4,
    steps_train_bin G =
      (samples (fst (flow_from_directory DATASET_DIR training true w1)) / BATCH_SIZE)%nat /\
    steps_test_bin G =
      (samples (fst (flow_from_directory DATASET_DIR validation false w2)) / BATCH_SIZE)%nat /\
    steps_train_sharp G =
      (samples (fst (flow_from_directory DATASET_DIR training true w3)) / BATCH_SIZE)%nat /\
    steps_test_sharp G =
      (samples (fst (flow_from_directory DATASET_DIR validation false w4)) / BATCH_SIZE)%nat.
Proof.
  unfold setup, new_generator, new_model_object, get_samples, alloc, load,
    with_world, lift, initial, mbind, prog_bind, mret, prog_ret.
  destruct (num_classes fs) as [n|]; [|discriminate]. cbn [heap world].
  destruct (flow_from_directory DATASET_DIR training true w) as [g1 w1] eqn:E1.
  cbn [heap world length app].
  destruct (flow_from_directory DATASET_DIR validation false w1) as [g2 w2] eqn:E2.
  cbn [heap world length app].
  destruct (flow_from_directory DATASET_DIR training true w2) as [g3 w3] eqn:E3.
  cbn [heap world length app].
  destruct (flow_from_directory DATASET_DIR validation false w3) as [g4 w4] eqn:E4.
  cbn [heap world length app lookup list_lookup].
  destruct (new_model (build_model n) w4) as [m1 w5].
  cbn [heap world length app].
  destruct (new_model (build_model n) w5) as [m2 w6].
  cbn [heap world length app].
  intros [= <- _]. cbn.
  exists w, w1, w2, w3. rewrite E1, E2, E3, E4. auto.
Qed.

(** X9. When the dataset has a class subdirectory but each subset holds
    fewer images than one batch, every step count is zero: the script
    still runs through all its epochs, but it never draws a batch and never
    touches a model, and each of the eight history lists ends up holding
    [EPOCHS] NaN values. *)
Theorem small_dataset_trains_nothing (fs : os.entry) (w : World) (n : nat) :
  num_classes fs = Some n -> (0 < n)%nat ->
  (forall sub shuffle w',
     (samples (fst (flow_from_directory DATASET_DIR sub shuffle w')) < BATCH_SIZE)%nat) ->
  exists G s0 s,
    setup flow_from_directory samples new_model fs (initial w) = Some (G, s0) /\
    script local_mean flow_from_directory samples next_batch new_model
      train_on_batch test_on_batch fs (initial w) = Some (G, s) /\
    world s = world s0 /\
    (forall l, l ∉ bin_histories G ++ sharp_histories G ->
               heap s !! l = heap s0 !! l) /\
    Forall (fun l => list_at s l = Some (replicate EPOCHS S754_nan))
      (bin_histories G ++ sharp_histories G).
Proof.
  intros Hn _ Hsmall.
  destruct (setup_establishes flow_from_directory samples new_model fs w
              (ex_intro _ n Hn))
    as (G & s0 & Hsetup & Hafter).
  destruct (setup_step_counts fs w G s0 Hsetup)
    as (w1 & w2 & w3 & w4 & Z1 & Z2 & Z3 & Z4).
  rewrite Nat.div_small in Z1, Z2, Z3, Z4 by apply Hsmall.
  destruct Hafter as (Hnd & _ & _ & _ & _ & _ & _ & Hlists & _).
  unfold bin_histories, sharp_histories in *. cbn [app] in *.
  assert (Hnd' := Hnd). unfold bin_objects, sharp_objects in Hnd'. cbn [app] in Hnd'.
  split_nodup Hnd'.
  repeat (apply Forall_cons in Hlists as [? Hlists]).
  destruct (training_loop_idle (train_gen_bin G) (test_gen_bin G) (model_bin G)
              (train_loss_bin G) (val_loss_bin G) (train_acc_bin G) (val_acc_bin G)
              (adaptive_threshold local_mean) EPOCHS s0)
    as ([] & s1 & Hbin & Hw1 & Hev1 & Hl1).
  { repeat (apply NoDup_cons; split; [not_in|]). apply NoDup_nil_2. }
  { repeat (apply Forall_cons; split; [assumption|]). constructor. }
  destruct (training_loop_idle (train_gen_sharp G) (test_gen_sharp G) (model_sharp G)
              (train_loss_sharp G) (val_loss_sharp G) (train_acc_sharp G)
              (val_acc_sharp G) sharpen EPOCHS s1)
    as ([] & s2 & Hsharp & Hw2 & Hev2 & Hl2).
  { repeat (apply NoDup_cons; split; [not_in|]). apply NoDup_nil_2. }
  { repeat (apply Forall_cons; split; [framed|]). constructor. }
  repeat (apply Forall_cons in Hl1 as [? Hl1]).
  repeat (apply Forall_cons in Hl2 as [? Hl2]).
  exists G, s0, s2. split; [exact Hsetup|]. split.
  { unfold script, mbind, prog_bind, mret, prog_ret. rewrite Hsetup.
    rewrite train_binary_is_training_loop, train_sharpen_is_training_loop.
    replace (steps_train_bin G) with 0%nat by congruence.
    replace (steps_test_bin G) with 0%nat by congruence.
    replace (steps_train_sharp G) with 0%nat by congruence.
    replace (steps_test_sharp G) with 0%nat by congruence.
    rewrite Hbin, Hsharp. reflexivity. }
  split; [congruence|]. split.
  - intros l Hl. rewrite !not_elem_of_cons in Hl. destruct_and?.
    rewrite (evolves_frame _ _ _ l Hev2) by not_in.
    apply (evolves_frame _ _ _ l Hev1). not_in.
  - repeat (apply Forall_cons; split; [apply list_at_Some; framed|]). constructor.
Qed.

(** *** After the loops *)

Lemma model_save_runs (model : nat) (path : string) (s : state) :
  is_model s model ->
  runs (model_save save model path) s (fun _ s' => heap s' = heap s).
Proof.
  intros [m Hm]. unfold model_save, runs, mbind, prog_bind, load, with_world.
  rewrite Hm. cbn. eexists _, _. split; reflexivity.
Qed.

Lemma gen_reset_runs (gen : nat) (s : state) :
  is_gen s gen ->
  runs (gen_reset reset gen) s (fun _ s' => evolves [gen] s s').
Proof.
  intros [g Hg]. unfold gen_reset, runs, mbind, prog_bind, load, store.
  rewrite Hg. cbn.
  rewrite decide_True by (eapply lookup_lt_Some; eauto).
  eexists _, _. split; [reflexivity|].
  eapply evolves_store; [exact Hg|exact I].
Qed.

Lemma evolves_same_heap (W : list nat) (s s' : state) :
  heap s' = heap s -> evolves W s s'.
Proof.
  intros Hh. unfold evolves. rewrite Hh. split; [reflexivity|].
  intros l o Ho. exists o. split; [exact Ho|]. split; [apply same_kind_refl|auto].
Qed.

Section Evaluated.

Hypothesis next_batch_images :
  forall g w, batch_images_ok (fst (fst (fst (next_batch g w)))).

(** The steps of an evaluation loop: [n] batches, one accuracy collected
    per batch; only the generator and the model change. *)
Lemma evaluation_steps_runs (gen model : nat)
    (preprocess_func : image Z -> option (image Z)) (n : nat) (s : state) :
  shape_preserving preprocess_func -> is_gen s gen -> is_model s model ->
  runs (for_range n (fun step acc_list =>
          '(batch_x, batch_y) ← next next_batch gen;
          batch_x ← lift (preprocess_batch batch_x preprocess_func);
          '(loss, acc) ← call_on_batch test_on_batch model batch_x batch_y;
          mret (acc_list ++ [acc]))
        []) s
       (fun accs s' => evolves [gen; model] s s' /\ length accs = n).
Proof.
  intros Hf Hgen Hmodel. unfold for_range.
  eapply runs_mono.
  - apply (runs_for_each _ (fun rem accs s' =>
      evolves [gen; model] s s' /\ (length accs + length rem = n)%nat)).
    + split; [apply evolves_refl|]. cbn. now rewrite length_seq.
    + intros step rem accs s0 (Hev0 & Hlen).
      apply runs_bind.
      eapply runs_mono;
        [apply (next_runs next_batch next_batch_images);
         eapply evolves_is_gen; eauto|].
      intros [batch_x batch_y] s1 [Hev1 Hok]. cbn [fst] in Hok.
      apply runs_bind.
      apply runs_lift; [now apply preprocess_batch_is_Some|].
      intros batch_x' _.
      apply runs_bind.
      eapply runs_mono;
        [apply call_on_batch_runs;
         eapply evolves_is_model; [exact Hev1|]; eapply evolves_is_model; eauto|].
      intros [loss acc] s2 Hev2. apply runs_ret. cbn [length] in *.
      split; [|rewrite length_app; cbn; lia].
      eapply (evolves_trans samples next_batch train_on_batch test_on_batch);
        [exact Hev0|].
      eapply (evolves_trans samples next_batch train_on_batch test_on_batch).
      * eapply evolves_weaken; [|exact Hev1]. incl.
      * eapply evolves_weaken; [|exact Hev2]. incl.
  - intros accs s' (Hev & Hlen). cbn [length] in Hlen. split; [exact Hev|lia].
Qed.

(** The statements after the loops run to their end from any state that
    holds the two validation generators and the two models; they change
    no other object, and collect one accuracy per validation step. *)
Lemma final_evaluation_runs (G : globals) (s : state) :
  is_gen s (test_gen_bin G) -> is_gen s (test_gen_sharp G) ->
  is_model s (model_bin G) -> is_model s (model_sharp G) ->
  runs (final_evaluation local_mean next_batch test_on_batch save reset G) s
    (fun r s' =>
       evolves (evaluation_objects G) s s' /\
       exists acc_bin acc_sharp,
         length acc_bin = steps_test_bin G /\
         length acc_sharp = steps_test_sharp G /\
         r = (np.mean acc_bin, np.mean acc_sharp)).
Proof.
  intros Hg1 Hg2 Hm1 Hm2. unfold final_evaluation, evaluation_objects.
  apply runs_bind. eapply runs_mono; [apply model_save_runs; exact Hm1|].
  intros [] s1 Hh1. apply (evolves_same_heap []) in Hh1.
  apply runs_bind. eapply runs_mono;
    [apply model_save_runs; eapply evolves_is_model; eauto|].
  intros [] s2 Hh2. apply (evolves_same_heap []) in Hh2.
  assert (H02 : evolves [] s s2)
    by (eapply (evolves_trans samples next_batch train_on_batch test_on_batch); eauto).
  clear Hh1 Hh2 s1.
  apply runs_bind. eapply runs_mono;
    [apply gen_reset_runs; eapply evolves_is_gen; eauto|].
  intros [] s3 Hev3.
  assert (H03 : evolves [test_gen_bin G] s s3).
  { eapply (evolves_trans samples next_batch train_on_batch test_on_batch);
      [eapply evolves_weaken; [|exact H02]; incl|exact Hev3]. }
  clear H02 Hev3 s2.
  apply runs_bind. eapply runs_mono;
    [apply gen_reset_runs; eapply evolves_is_gen; eauto|].
  intros [] s4 Hev4.
  assert (H04 : evolves [test_gen_bin G; test_gen_sharp G] s s4).
  { eapply (evolves_trans samples next_batch train_on_batch test_on_batch);
      eapply evolves_weaken; [|exact H03| |exact Hev4]; incl. }
  clear H03 Hev4 s3.
  apply runs_bind. eapply runs_mono;
    [apply evaluation_steps_runs;
     [apply adaptive_threshold_shape_preserving
     |eapply evolves_is_gen; eauto|eapply evolves_is_model; eauto]|].
  intros acc_bin s5 [Hev5 Hlen5].
  assert (H05 : evolves [test_gen_bin G; model_bin G; test_gen_sharp G] s s5).
  { eapply (evolves_trans samples next_batch train_on_batch test_on_batch);
      eapply evolves_weaken; [|exact H04| |exact Hev5]; incl. }
  clear H04 Hev5 s4.
  apply runs_bind. eapply runs_mono;
    [apply evaluation_steps_runs;
     [apply sharpen_shape_preserving
     |eapply evolves_is_gen; eauto|eapply evolves_is_model; eauto]|].
  intros acc_sharp s6 [Hev6 Hlen6]. apply runs_ret. split.
  - eapply (evolves_trans samples next_batch train_on_batch test_on_batch);
      eapply evolves_weaken; [|exact H05| |exact Hev6]; incl.
  - exists acc_bin, acc_sharp. auto.
Qed.

(** X11. After the two loops the script saves both models, rewinds both
    validation generators and evaluates each model once more.  For a
    dataset with at least one class subdirectory these statements run to
    their end; the accuracy they report for a variant without validation
    step is NaN; and they leave the eight history lists, each with its
    [EPOCHS] entries, and both training generators exactly as the loops
    left them. *)
Theorem final_evaluation_keeps_histories (fs : os.entry) (w : World) (n : nat) :
  num_classes fs = Some n -> (0 < n)%nat ->
  exists G s,
    script local_mean flow_from_directory samples next_batch new_model
      train_on_batch test_on_batch fs (initial w) = Some (G, s) /\
    runs (final_evaluation local_mean next_batch test_on_batch save reset G) s
      (fun r s' =>
         (steps_test_bin G = 0%nat -> fst r = S754_nan) /\
         (steps_test_sharp G = 0%nat -> snd r = S754_nan) /\
         Forall (fun l => heap s' !! l = heap s !! l)
           (train_gen_bin G :: train_gen_sharp G ::
            bin_histories G ++ sharp_histories G) /\
         Forall (fun l => exists xs, list_at s' l = Some xs /\ length xs = EPOCHS)
           (bin_histories G ++ sharp_histories G)).
Proof.
  intros Hn _.
  destruct (setup_establishes flow_from_directory samples new_model fs w
              (ex_intro _ n Hn))
    as (G & s0 & Hsetup & Hafter).
  destruct (binary_loop_runs local_mean flow_from_directory samples next_batch
              train_on_batch test_on_batch next_batch_images G s0 EPOCHS Hafter)
    as ([] & s1 & Hbin & Hev1 & Hfill1).
  destruct (sharpen_loop_runs flow_from_directory samples next_batch
              train_on_batch test_on_batch next_batch_images G s0 s1 EPOCHS Hafter Hev1)
    as ([] & s2 & Hsharp & Hev2 & Hfill2).
  exists G, s2. split.
  { unfold script, mbind, prog_bind, mret, prog_ret. rewrite Hsetup.
    rewrite train_binary_is_training_loop, Hbin.
    rewrite train_sharpen_is_training_loop, Hsharp. reflexivity. }
  destruct Hafter as (Hnd & _ & Hg2 & _ & Hg4 & Hm1 & Hm2 & _).
  assert (Hb : forall l, l ∈ bin_objects G -> heap s2 !! l = heap s1 !! l).
  { intros l Hl. eapply evolves_frame; [exact Hev2|]. now apply bin_not_sharp. }
  unfold bin_objects, sharp_objects in Hnd. cbn [app] in Hnd. split_nodup Hnd.
  eapply runs_mono.
  - apply final_evaluation_runs;
      repeat first [ eassumption
                   | eapply evolves_is_gen; [exact Hev2|]
                   | eapply evolves_is_gen; [exact Hev1|]
                   | eapply evolves_is_model; [exact Hev2|]
                   | eapply evolves_is_model; [exact Hev1|] ].
  - intros r s3 (Hev3 & acc_bin & acc_sharp & L1 & L2 & ->).
    unfold evaluation_objects in Hev3. cbn [fst snd].
    split; [intros Hz; rewrite Hz in L1; now destruct acc_bin|].
    split; [intros Hz; rewrite Hz in L2; now destruct acc_sharp|].
    assert (Hkeep : Forall (fun l => heap s3 !! l = heap s2 !! l)
              (train_gen_bin G :: train_gen_sharp G ::
               bin_histories G ++ sharp_histories G)).
    { unfold bin_histories, sharp_histories. cbn [app].
      repeat (apply Forall_cons; split;
              [apply (evolves_frame _ _ _ _ Hev3); not_in|]).
      constructor. }
    split; [exact Hkeep|].
    apply Forall_cons in Hkeep as [_ Hkeep]. apply Forall_cons in Hkeep as [_ Hkeep].
    destruct Hfill1 as (l1 & l2 & l3 & l4 & ? & ? & ? & ? & E1 & E2 & E3 & E4 & _).
    destruct Hfill2 as (l5 & l6 & l7 & l8 & ? & ? & ? & ? & E5 & E6 & E7 & E8 & _).
    rewrite <- Hb in E1, E2, E3, E4
      by (unfold bin_objects; rewrite !elem_of_cons; tauto).
    unfold bin_histories, sharp_histories in *. cbn [app] in *.
    repeat (apply Forall_cons in Hkeep as [? Hkeep]).
    repeat (apply Forall_cons; split;
            [eexists; split; [apply list_at_Some; etransitivity; eassumption|assumption]|]).
    constructor.
Qed.

End Evaluated.

End ScriptFurther.


Lemma small_dataset_trains_nothing_witness :
  exists G s0 s,
    setup toy_flow_small toy_samples toy_new_model toy_fs (initial 0%nat) = Some (G, s0) /\
    script toy_local_mean toy_flow_small toy_samples toy_next_batch toy_new_model
      toy_on_batch toy_on_batch toy_fs (initial 0%nat) = Some (G, s) /\
    world s = world s0 /\
    (forall l, l ∉ bin_histories G ++ sharp_histories G ->
               heap s !! l = heap s0 !! l) /\
    Forall (fun l => list_at s l = Some (replicate EPOCHS S754_nan))
      (bin_histories G ++ sharp_histories G).
Proof.
  apply (small_dataset_trains_nothing toy_local_mean toy_flow_small toy_samples
           toy_next_batch toy_new_model toy_on_batch toy_on_batch toy_fs 0%nat 2).
  - reflexivity.
  - lia.
  - intros [] shuffle w'; cbn; unfold toy_samples, BATCH_SIZE; lia.
Defined.

Lemma final_evaluation_keeps_histories_witness :
  exists G s,
    script toy_local_mean toy_flow toy_samples toy_next_batch toy_new_model
      toy_on_batch toy_on_batch toy_fs (initial 0%nat) = Some (G, s) /\
    runs (final_evaluation toy_local_mean toy_next_batch toy_on_batch
            toy_save toy_reset G) s
      (fun r s' =>
         (steps_test_bin G = 0%nat -> fst r = S754_nan) /\
         (steps_test_sharp G = 0%nat -> snd r = S754_nan) /\
         Forall (fun l => heap s' !! l = heap s !! l)
           (train_gen_bin G :: train_gen_sharp G ::
            bin_histories G ++ sharp_histories G) /\
         Forall (fun l => exists xs, list_at s' l = Some xs /\ length xs = EPOCHS)
           (bin_histories G ++ sharp_histories G)).
Proof.
  apply (final_evaluation_keeps_histories toy_local_mean toy_flow toy_samples
           toy_next_batch toy_new_model toy_on_batch toy_on_batch toy_save toy_reset
           toy_next_batch_images toy_fs 0%nat 2).
  - reflexivity.
  - lia.
Defined.
